(** * SmartHome.py: a shallow embedding of the home automation controller

    The development follows [src/SmartHome.py] class by class.

    Conventions of the embedding.
    - Python numbers ([int], [float]) are the rationals [Q] they denote;
      Python compares [int] and [float] values exactly, and so does [Q].
      [round(x, 2)] returns a float: the double nearest to the rounded
      decimal ([round2]).  [+] and [-] are exact: on the values the program
      handles (a target plus or minus one, the difference of two clock
      readings) the floating point operations are exact too.
    - A sensor's [value] is dynamically typed in the source ([None] until the
      first read, then a float, an int or a bool): it is a [PyVal].
    - [print] and the matplotlib calls are recorded as a list of [Line]s, in
      the order in which the source performs them.
    - [time.time()] and the [random] module are the environment: every call
      that reads them takes the value read as an argument. *)

From Stdlib Require Import String List Bool ZArith QArith Qround Qpower Qabs.
From Stdlib Require Import Lia Lqa.
From Stdlib Require Import Sorted.
Import ListNotations.

Local Open Scope string_scope.
Local Open Scope list_scope.

(** ** Python values held by sensors *)

Inductive PyVal : Type :=
| VNone
| VBool (b : bool)
| VInt (z : Z)
| VFloat (q : Q).

(** [bool(v)]: the truth value Python gives [v] in an [if]. *)
Definition truthy (v : PyVal) : bool :=
  match v with
  | VNone => false
  | VBool b => b
  | VInt z => negb (z =? 0)%Z
  | VFloat q => negb (Qeq_bool q 0)
  end.

(** The number an ordering comparison sees; [None] is not a number and the
    comparison raises [TypeError]. *)
Definition as_number (v : PyVal) : option Q :=
  match v with
  | VNone => None
  | VBool b => Some (if b then 1%Q else 0%Q)
  | VInt z => Some (inject_Z z)
  | VFloat q => Some q
  end.

Definition Qlt_bool (x y : Q) : bool := negb (Qle_bool y x).

(** ** What the program writes: one constructor per [print] and one for the
    chart handed to matplotlib. *)

Inductive Line : Type :=
| StatusChanged (name status : string)
| BrightnessSet (name : string) (level : Q)
| TargetTemperatureSet (name : string) (temp : Q)
| ReadingSensorData
| SensorReading (name : string) (value : PyVal)
| CoolingNeeded (current : PyVal) (target : Q)
| HeatingNeeded (current : PyVal) (target : Q)
| TemperatureStable (current : PyVal)
| NoMotionTurningOff
| StartingSystem
| StoppingSystem
| GeneratingVisualization
| SystemIsRunning
| SystemStoppedGracefully
| Plot (timestamps : list Q) (temp_data light_data : list PyVal)
       (motion_data : list Z).

(** ** class SmartDevice *)

Record SmartDevice : Type := mkSmartDevice {
  device_id : string;
  name : string;
  _status : string
}.

(** [SmartDevice.__init__(device_id, name, status)]; the default of [status]
    is [default_status]. *)
Definition SmartDevice_init (device_id name status : string) : SmartDevice :=
  mkSmartDevice device_id name status.

Definition default_status : string := "off".

(** [new_status in ("on", "off")] *)
Definition in_on_off (new_status : string) : bool :=
  (new_status =? "on") || (new_status =? "off").

(** Subclasses inherit the [status] property and [turn_on]/[turn_off]:
    a device type gives access to the [SmartDevice] part it extends. *)
Class Device (D : Type) : Type := {
  base : D -> SmartDevice;
  with_base : SmartDevice -> D -> D
}.

#[export] Instance SmartDevice_Device : Device SmartDevice :=
  {| base := fun d => d; with_base := fun b _ => b |}.

Section DeviceMethods.
Context {D : Type} `{Device D}.

(** The [status] property (getter). *)
Definition status (d : D) : string := _status (base d).

(** The [status] property (setter): [d.status = new_status]. *)
Definition status_setter (new_status : string) (d : D) : D * list Line :=
  if in_on_off new_status then
    let b := base d in
    let d' := with_base (mkSmartDevice (device_id b) (name b) new_status) d in
    (d', [StatusChanged (name (base d')) (status d')])
  else (d, []).

Definition turn_on (d : D) : D * list Line := status_setter "on" d.

Definition turn_off (d : D) : D * list Line := status_setter "off" d.
End DeviceMethods.

(** ** class SmartLight(SmartDevice) *)

Record SmartLight : Type := mkSmartLight {
  light_device : SmartDevice;
  brightness : Q
}.

#[export] Instance SmartLight_Device : Device SmartLight :=
  {| base := light_device;
     with_base := fun b l => mkSmartLight b (brightness l) |}.

(** [SmartLight.__init__(device_id, name, brightness)]; the default of
    [brightness] is [default_brightness]. *)
Definition SmartLight_init (device_id name : string) (brightness : Q)
  : SmartLight :=
  mkSmartLight (SmartDevice_init device_id name default_status) brightness.

Definition default_brightness : Q := 50.

Definition set_brightness (level : Q) (l : SmartLight)
  : SmartLight * list Line :=
  if Qle_bool 0 level && Qle_bool level 100 then
    let l' := mkSmartLight (light_device l) level in
    (l', [BrightnessSet (name (light_device l')) (brightness l')])
  else (l, []).

(** ** class SmartThermostat(SmartDevice) *)

Record SmartThermostat : Type := mkSmartThermostat {
  thermostat_device : SmartDevice;
  target_temperature : Q
}.

#[export] Instance SmartThermostat_Device : Device SmartThermostat :=
  {| base := thermostat_device;
     with_base := fun b t => mkSmartThermostat b (target_temperature t) |}.

(** [SmartThermostat.__init__(device_id, name, target_temperature)]; the
    default of [target_temperature] is [default_target_temperature]. *)
Definition SmartThermostat_init (device_id name : string)
  (target_temperature : Q) : SmartThermostat :=
  mkSmartThermostat (SmartDevice_init device_id name default_status)
                    target_temperature.

Definition default_target_temperature : Q := 24.

Definition set_target_temperature (temp : Q) (t : SmartThermostat)
  : SmartThermostat * list Line :=
  if Qle_bool 18 temp && Qle_bool temp 30 then
    let t' := mkSmartThermostat (thermostat_device t) temp in
    (t', [TargetTemperatureSet (name (thermostat_device t'))
                               (target_temperature t')])
  else (t, []).

(** ** class Sensor and its three subclasses *)

Inductive SensorClass : Type :=
| TemperatureSensor
| LightSensor
| MotionSensor.

Record Sensor : Type := mkSensor {
  sensor_class : SensorClass;
  sensor_id : string;
  sensor_name : string;
  value : PyVal
}.

(** [Sensor.__init__(sensor_id, name)]: no value before the first read. *)
Definition Sensor_init (c : SensorClass) (sensor_id name : string) : Sensor :=
  mkSensor c sensor_id name VNone.

(** What the [random] module returns to one poll of the three sensors:
    [random.uniform(20, 30)], [random.randint(100, 600)] and
    [random.choice([True, False])]. *)
Record Random : Type := mkRandom {
  uniform_20_30 : Q;
  randint_100_600 : Z;
  choice_True_False : bool
}.

(** Round half to even, the rounding of Python's [round]. *)
Definition round_half_even (x : Q) : Z :=
  let f := Qfloor x in
  match Qcompare (x - inject_Z f) (1 # 2) with
  | Lt => f
  | Gt => (f + 1)%Z
  | Eq => if Z.even f then f else (f + 1)%Z
  end.

(** [x] rounded to the nearest multiple of [u], ties to the even multiple. *)
Definition round_to_multiple (u x : Q) : Q :=
  inject_Z (round_half_even (x / u)) * u.

(** The exponent [e] with [2 ^ e <= x < 2 ^ (e + 1)], for [x > 0]. *)
Definition binade (x : Q) : Z :=
  let a := (Z.log2 (Qnum x) - Z.log2 (Zpos (Qden x)))%Z in
  if Qle_bool (2 ^ a) x then a else (a - 1)%Z.

(** The double nearest to [x > 0], ties to the even significand: doubles have
    a significand of 53 bits, so those of the binade of [x] are the multiples
    of [2 ^ (binade x - 52)]. *)
Definition nearest_double_pos (x : Q) : Q :=
  Qred (round_to_multiple (2 ^ (binade x - 52)) x).

(** The double nearest to [x], as the conversion of a decimal to a float
    gives it.  The numbers converted here are zero or at least a hundredth
    in magnitude, and no larger than a double: they are in the range of the
    normal doubles, the only ones described. *)
Definition nearest_double (x : Q) : Q :=
  match Qcompare x 0 with
  | Eq => 0
  | Gt => nearest_double_pos x
  | Lt => - nearest_double_pos (- x)
  end.

(** [round(x, 2)]: [x] is rounded to a number of hundredths, half to even,
    and the result is the double nearest to that decimal. *)
Definition round2 (x : Q) : Q :=
  nearest_double (Qmake (round_half_even (x * 100)) 100).

Arguments round2 : simpl never.

(** [sensor.read_value()], dispatched on the class of [sensor]. *)
Definition read_value (r : Random) (sensor : Sensor) : Sensor :=
  let v :=
    match sensor_class sensor with
    | TemperatureSensor => VFloat (round2 (uniform_20_30 r))
    | LightSensor => VInt (randint_100_600 r)
    | MotionSensor => VBool (choice_True_False r)
    end in
  mkSensor (sensor_class sensor) (sensor_id sensor) (sensor_name sensor) v.

(** ** class HomeAutomationSystem

    [devices] and [sensors] are dicts filled once, by
    [initialize_components], with the five fixed keys below and never
    re-keyed: the record has one field per key.  [sensors.values()] iterates
    in insertion order: temperature, light, motion. *)

Record HomeAutomationSystem : Type := mkSystem {
  light_1 : SmartLight;
  thermostat_1 : SmartThermostat;
  temp_sensor_1 : Sensor;
  light_sensor_1 : Sensor;
  motion_sensor_1 : Sensor;
  running : bool;
  last_motion_time : Q;
  start_time : Q;
  timestamps : list Q;
  temp_data : list PyVal;
  light_data : list PyVal;
  motion_data : list Z
}.

Definition with_light_1 (l : SmartLight) (s : HomeAutomationSystem) :=
  mkSystem l (thermostat_1 s) (temp_sensor_1 s) (light_sensor_1 s)
    (motion_sensor_1 s) (running s) (last_motion_time s) (start_time s)
    (timestamps s) (temp_data s) (light_data s) (motion_data s).

Definition with_thermostat_1 (t : SmartThermostat) (s : HomeAutomationSystem) :=
  mkSystem (light_1 s) t (temp_sensor_1 s) (light_sensor_1 s)
    (motion_sensor_1 s) (running s) (last_motion_time s) (start_time s)
    (timestamps s) (temp_data s) (light_data s) (motion_data s).

Definition with_sensors (t l m : Sensor) (s : HomeAutomationSystem) :=
  mkSystem (light_1 s) (thermostat_1 s) t l m (running s)
    (last_motion_time s) (start_time s)
    (timestamps s) (temp_data s) (light_data s) (motion_data s).

Definition with_running (b : bool) (s : HomeAutomationSystem) :=
  mkSystem (light_1 s) (thermostat_1 s) (temp_sensor_1 s) (light_sensor_1 s)
    (motion_sensor_1 s) b (last_motion_time s) (start_time s)
    (timestamps s) (temp_data s) (light_data s) (motion_data s).

Definition with_last_motion_time (t : Q) (s : HomeAutomationSystem) :=
  mkSystem (light_1 s) (thermostat_1 s) (temp_sensor_1 s) (light_sensor_1 s)
    (motion_sensor_1 s) (running s) t (start_time s)
    (timestamps s) (temp_data s) (light_data s) (motion_data s).

(** The four [append]s of [process_sensor_data]. *)
Definition append_row (t : Q) (temp light : PyVal) (motion : Z)
  (s : HomeAutomationSystem) :=
  mkSystem (light_1 s) (thermostat_1 s) (temp_sensor_1 s) (light_sensor_1 s)
    (motion_sensor_1 s) (running s) (last_motion_time s) (start_time s)
    (timestamps s ++ [t]) (temp_data s ++ [temp]) (light_data s ++ [light])
    (motion_data s ++ [motion]).

(** [HomeAutomationSystem()]: [__init__] reads the clock twice, then calls
    [initialize_components]. *)
Definition HomeAutomationSystem_init (now1 now2 : Q) : HomeAutomationSystem :=
  mkSystem
    (SmartLight_init "light_1" "Living Room Light" default_brightness)
    (SmartThermostat_init "thermostat_1" "Main Thermostat"
                          default_target_temperature)
    (Sensor_init TemperatureSensor "temp_sensor_1" "Temperature Sensor")
    (Sensor_init LightSensor "light_sensor_1" "Light Sensor")
    (Sensor_init MotionSensor "motion_sensor_1" "Motion Sensor")
    false now1 now2 [] [] [] [].

(** ** How a method of the system ends *)

Inductive Exn : Type := TypeError.

Inductive Completion : Type :=
| Returns
| Raises (e : Exn).

(** The system as the method leaves it (a raising method keeps the
    assignments made before the exception) and what it printed. *)
Record Outcome : Type := mkOutcome {
  completion : Completion;
  state : HomeAutomationSystem;
  printed : list Line
}.

Definition ret (s : HomeAutomationSystem) (out : list Line) : Outcome :=
  mkOutcome Returns s out.

Definition raise (e : Exn) (s : HomeAutomationSystem) (out : list Line)
  : Outcome :=
  mkOutcome (Raises e) s out.

(** Sequencing: an exception skips the rest. *)
Definition andThen (o : Outcome) (k : HomeAutomationSystem -> Outcome)
  : Outcome :=
  match completion o with
  | Returns =>
      let o' := k (state o) in
      mkOutcome (completion o') (state o') (printed o ++ printed o')
  | Raises e => o
  end.

Notation "o ;; k" := (andThen o k) (at level 61, left associativity).

(** ** The rule engine *)

Definition rule_thermostat_control (s : HomeAutomationSystem) : Outcome :=
  let temp_sensor := temp_sensor_1 s in
  let thermostat := thermostat_1 s in
  let current_temp := value temp_sensor in
  let target_temp := target_temperature thermostat in
  match as_number current_temp with
  | None => raise TypeError s []
  | Some t =>
      if Qlt_bool (target_temp + 1) t then
        let (thermostat', out) := turn_on thermostat in
        ret (with_thermostat_1 thermostat' s)
            (CoolingNeeded current_temp target_temp :: out)
      else if Qlt_bool t (target_temp - 1) then
        let (thermostat', out) := turn_on thermostat in
        ret (with_thermostat_1 thermostat' s)
            (HeatingNeeded current_temp target_temp :: out)
      else
        let (thermostat', out) := turn_off thermostat in
        ret (with_thermostat_1 thermostat' s)
            (TemperatureStable current_temp :: out)
  end.

(** [now] is what [time.time()] returns to the one call the rule makes (in
    the branch without motion the call is made only when the light is on). *)
Definition rule_lighting_control (now : Q) (s : HomeAutomationSystem)
  : Outcome :=
  let light_sensor := light_sensor_1 s in
  let motion_sensor := motion_sensor_1 s in
  let light := light_1 s in
  if truthy (value motion_sensor) then
    let s1 := with_last_motion_time now s in
    match as_number (value light_sensor) with
    | None => raise TypeError s1 []
    | Some lux =>
        if Qlt_bool lux 200 && (status light =? "off") then
          let (light', out1) := turn_on light in
          let (light'', out2) := set_brightness 70 light' in
          ret (with_light_1 light'' s1) (out1 ++ out2)
        else ret s1 []
    end
  else
    if (status light =? "on") && Qlt_bool 30 (now - last_motion_time s) then
      let (light', out) := turn_off light in
      ret (with_light_1 light' s) (NoMotionTurningOff :: out)
    else ret s [].

(** ** One tick *)

(** What one call of [process_sensor_data] reads from its environment, in
    the order of the reads. *)
Record TickEnv : Type := mkTickEnv {
  clock_at_tick : Q;
  draws : Random;
  clock_at_rule : Q
}.

Definition process_sensor_data (e : TickEnv) (s : HomeAutomationSystem)
  : Outcome :=
  let current_time := round2 (clock_at_tick e - start_time s) in
  let t := read_value (draws e) (temp_sensor_1 s) in
  let l := read_value (draws e) (light_sensor_1 s) in
  let m := read_value (draws e) (motion_sensor_1 s) in
  let s1 := with_sensors t l m s in
  let s2 := append_row current_time (value t) (value l)
                       (if truthy (value m) then 1%Z else 0%Z) s1 in
  ret s2 [ReadingSensorData;
          SensorReading (sensor_name t) (value t);
          SensorReading (sensor_name l) (value l);
          SensorReading (sensor_name m) (value m)] ;;
  rule_thermostat_control ;;
  rule_lighting_control (clock_at_rule e).

(** ** The control loop *)

(** The iterations of [while self.running: ...] in a run where the body is
    entered once for each element of [envs]; [time.sleep(interval)] changes
    nothing of the system. *)
Fixpoint loop_iterations (envs : list TickEnv) (s : HomeAutomationSystem)
  : Outcome :=
  match envs with
  | [] => ret s []
  | e :: envs' => process_sensor_data e s ;; loop_iterations envs'
  end.

(** The first two statements of [start_monitoring]. *)
Definition start_monitoring_entry (s : HomeAutomationSystem) : Outcome :=
  ret (with_running true s) [StartingSystem].

Definition start_monitoring (envs : list TickEnv) (s : HomeAutomationSystem)
  : Outcome :=
  start_monitoring_entry s ;; loop_iterations envs.

Definition plot_data (s : HomeAutomationSystem) : Outcome :=
  ret s [GeneratingVisualization;
         Plot (timestamps s) (temp_data s) (light_data s) (motion_data s)].

Definition stop_monitoring (s : HomeAutomationSystem) : Outcome :=
  ret (with_running false s) [StoppingSystem] ;; plot_data.

(** ** The main program

    [__main__] creates the system, starts [start_monitoring] on a second
    thread and waits for [KeyboardInterrupt]; its handler calls
    [stop_monitoring] and then joins the thread.  The two threads are
    interleaved statement by statement; a tick is one step of the loop
    thread. *)

(** Where the main thread is. *)
Inductive MainPc : Type :=
| MainStarted        (* thread started, before the first print of the [try] *)
| MainWaiting        (* in [while True: time.sleep(1)] *)
| MainStopCalled     (* handler entered, before [self.running = False] *)
| MainFlagCleared    (* before the print of [stop_monitoring] *)
| MainBeforePlot     (* before [self.plot_data()] *)
| MainBeforeJoin     (* before [automation_thread.join()] *)
| MainJoined         (* before the last print *)
| MainDone.

(** Where the thread running [start_monitoring] is. *)
Inductive LoopPc : Type :=
| LoopEntry          (* before the first statement of [start_monitoring] *)
| LoopTest           (* at [while self.running] *)
| LoopBody           (* before [self.process_sensor_data()] *)
| LoopSleep          (* in [time.sleep(interval)] *)
| LoopExited.

Record World : Type := mkWorld {
  home_system : HomeAutomationSystem;
  main_pc : MainPc;
  loop_pc : LoopPc;
  stdout : list Line
}.

(** One statement of one thread. *)
Inductive Label : Type :=
| PrintRunning
| Interrupt
| ClearFlag
| PrintStopping
| PlotData
| Join
| PrintStopped
| Enter
| Test
| Tick (e : TickEnv)
| Wake.

Definition initial_world (now1 now2 : Q) : World :=
  mkWorld (HomeAutomationSystem_init now1 now2) MainStarted LoopEntry [].

Definition main_step (pc : MainPc) (add : list Line) (w : World) : World :=
  mkWorld (home_system w) pc (loop_pc w) (stdout w ++ add).

Definition exec (l : Label) (w : World) : option World :=
  match l, main_pc w, loop_pc w with
  | PrintRunning, MainStarted, _ =>
      Some (main_step MainWaiting [SystemIsRunning] w)
  | Interrupt, MainStarted, _ => Some (main_step MainStopCalled [] w)
  | Interrupt, MainWaiting, _ => Some (main_step MainStopCalled [] w)
  | ClearFlag, MainStopCalled, lp =>
      Some (mkWorld (with_running false (home_system w)) MainFlagCleared lp
                    (stdout w))
  | PrintStopping, MainFlagCleared, _ =>
      Some (main_step MainBeforePlot [StoppingSystem] w)
  | PlotData, MainBeforePlot, _ =>
      Some (main_step MainBeforeJoin (printed (plot_data (home_system w))) w)
  | Join, MainBeforeJoin, LoopExited => Some (main_step MainJoined [] w)
  | PrintStopped, MainJoined, _ =>
      Some (main_step MainDone [SystemStoppedGracefully] w)
  | Enter, mp, LoopEntry =>
      let o := start_monitoring_entry (home_system w) in
      Some (mkWorld (state o) mp LoopTest (stdout w ++ printed o))
  | Test, mp, LoopTest =>
      Some (mkWorld (home_system w) mp
                    (if running (home_system w) then LoopBody else LoopExited)
                    (stdout w))
  | Tick e, mp, LoopBody =>
      let o := process_sensor_data e (home_system w) in
      Some (mkWorld (state o) mp
                    (match completion o with
                     | Returns => LoopSleep
                     | Raises _ => LoopExited
                     end)
                    (stdout w ++ printed o))
  | Wake, mp, LoopSleep =>
      Some (mkWorld (home_system w) mp LoopTest (stdout w))
  | _, _, _ => None
  end.

(** An execution: the statements in the order in which they ran. *)
Fixpoint run (tr : list Label) (w : World) : option World :=
  match tr with
  | [] => Some w
  | l :: tr' =>
      match exec l w with
      | Some w' => run tr' w'
      | None => None
      end
  end.

Definition is_plot (l : Label) : bool :=
  match l with PlotData => true | _ => false end.

Definition is_tick (l : Label) : bool :=
  match l with Tick _ => true | _ => false end.

(** The statements of the shutdown path of the main thread. *)
Definition is_shutdown (l : Label) : bool :=
  match l with
  | ClearFlag | PrintStopping | PlotData | Join | PrintStopped => true
  | _ => false
  end.

(** Every chart is drawn at a moment when the loop thread has exited. *)
Definition plots_after_loop_exit (w0 : World) (tr : list Label) : Prop :=
  forall pre post w,
    tr = pre ++ PlotData :: post ->
    run pre w0 = Some w ->
    loop_pc w = LoopExited.

(** No tick runs once a chart has been drawn. *)
Definition no_tick_after_plot (tr : list Label) : Prop :=
  forall pre post,
    tr = pre ++ PlotData :: post ->
    filter is_tick post = [].

(** ** Vocabulary of the properties *)

(** The two-valued status domain. *)
Definition on_or_off (s : string) : Prop := s = "on" \/ s = "off".

(** Everything a caller can do to a light through its methods. *)
Inductive LightOp : Type :=
| LightAssignStatus (new_status : string)
| LightTurnOn
| LightTurnOff
| LightSetBrightness (level : Q).

Definition light_op (op : LightOp) (l : SmartLight) : SmartLight * list Line :=
  match op with
  | LightAssignStatus s => status_setter s l
  | LightTurnOn => turn_on l
  | LightTurnOff => turn_off l
  | LightSetBrightness level => set_brightness level l
  end.

(** Everything a caller can do to a thermostat through its methods. *)
Inductive ThermostatOp : Type :=
| ThermostatAssignStatus (new_status : string)
| ThermostatTurnOn
| ThermostatTurnOff
| ThermostatSetTarget (temp : Q).

Definition thermostat_op (op : ThermostatOp) (t : SmartThermostat)
  : SmartThermostat * list Line :=
  match op with
  | ThermostatAssignStatus s => status_setter s t
  | ThermostatTurnOn => turn_on t
  | ThermostatTurnOff => turn_off t
  | ThermostatSetTarget temp => set_target_temperature temp t
  end.

(** Everything a caller can do to a plain device through its methods. *)
Inductive DeviceOp : Type :=
| DeviceAssignStatus (new_status : string)
| DeviceTurnOn
| DeviceTurnOff.

Definition device_op (op : DeviceOp) (d : SmartDevice)
  : SmartDevice * list Line :=
  match op with
  | DeviceAssignStatus s => status_setter s d
  | DeviceTurnOn => turn_on d
  | DeviceTurnOff => turn_off d
  end.

(** A sequence of method calls on one object, outputs concatenated. *)
Fixpoint calls {A Op : Type} (call : Op -> A -> A * list Line)
  (ops : list Op) (a : A) : A * list Line :=
  match ops with
  | [] => (a, [])
  | op :: ops' =>
      let (a', out) := call op a in
      let (a'', out') := calls call ops' a' in
      (a'', out ++ out')
  end.

(** The four lists the chart is drawn from. *)
Definition series (s : HomeAutomationSystem)
  : list Q * list PyVal * list PyVal * list Z :=
  (timestamps s, temp_data s, light_data s, motion_data s).

(** [new] is [old] with [k] elements appended: what was in [old] is still
    there, at the same place and unchanged. *)
Definition appended {A : Type} (k : nat) (old new : list A) : Prop :=
  exists added, new = old ++ added /\ length added = k.

(** [k] rows were appended to the series between [s] and [s']. *)
Definition rows_appended (k : nat) (s s' : HomeAutomationSystem) : Prop :=
  appended k (timestamps s) (timestamps s')
  /\ appended k (temp_data s) (temp_data s')
  /\ appended k (light_data s) (light_data s')
  /\ appended k (motion_data s) (motion_data s').

(** Every element is at most every later one. *)
Definition non_decreasing (l : list Q) : Prop := StronglySorted Qle l.

(** The first half of [process_sensor_data]: the poll of the sensors and
    the four [append]s, before the two rules. *)
Definition poll_and_record (e : TickEnv) (s : HomeAutomationSystem)
  : HomeAutomationSystem :=
  let t := read_value (draws e) (temp_sensor_1 s) in
  let l := read_value (draws e) (light_sensor_1 s) in
  let m := read_value (draws e) (motion_sensor_1 s) in
  append_row (round2 (clock_at_tick e - start_time s)) (value t) (value l)
             (if truthy (value m) then 1%Z else 0%Z)
             (with_sensors t l m s).

(** The statements of the shutdown path that the main thread has executed
    when it is at [pc]. *)
Definition shutdown_done (pc : MainPc) : list Label :=
  match pc with
  | MainStarted | MainWaiting | MainStopCalled => []
  | MainFlagCleared => [ClearFlag]
  | MainBeforePlot => [ClearFlag; PrintStopping]
  | MainBeforeJoin => [ClearFlag; PrintStopping; PlotData]
  | MainJoined => [ClearFlag; PrintStopping; PlotData; Join]
  | MainDone => [ClearFlag; PrintStopping; PlotData; Join; PrintStopped]
  end.

(** A run of the program in which the loop thread enters its loop and is in
    the body of the first iteration when the interrupt arrives. *)
Definition interrupted_in_tick (e : TickEnv) : list Label :=
  [Enter; Test; PrintRunning; Interrupt; ClearFlag; PrintStopping; PlotData;
   Tick e; Wake; Test; Join; PrintStopped].

(** A system whose sensors hold the given readings. *)
Definition set_value (v : PyVal) (sensor : Sensor) : Sensor :=
  mkSensor (sensor_class sensor) (sensor_id sensor) (sensor_name sensor) v.

Definition with_readings (temp lux motion : PyVal) (s : HomeAutomationSystem)
  : HomeAutomationSystem :=
  with_sensors (set_value temp (temp_sensor_1 s))
               (set_value lux (light_sensor_1 s))
               (set_value motion (motion_sensor_1 s)) s.

(** The new system of the scenarios: created at time 1000, target 24, light
    off. *)
Definition new_system : HomeAutomationSystem :=
  HomeAutomationSystem_init 1000 1000.

(** The same with the light switched on. *)
Definition lit_system : HomeAutomationSystem :=
  with_light_1 (fst (turn_on (light_1 new_system))) new_system.

(** The rule touches the status of the thermostat and nothing else. *)
Definition thermostat_with_status (st : string) (t : SmartThermostat)
  : SmartThermostat :=
  mkSmartThermostat
    (mkSmartDevice (device_id (thermostat_device t))
                   (name (thermostat_device t)) st)
    (target_temperature t).

(** A run in which the interrupt arrives while the loop thread sleeps after
    its first tick. *)
Definition interrupted_in_sleep (e : TickEnv) : list Label :=
  [Enter; Test; Tick e; PrintRunning; Interrupt; ClearFlag; PrintStopping;
   PlotData; Wake; Test; Join; PrintStopped].

(** ** Vocabulary of the further properties *)

(** The domains the two setters enforce. *)
Definition brightness_in_domain (l : SmartLight) : Prop :=
  (0 <= brightness l <= 100)%Q.

Definition target_in_domain (t : SmartThermostat) : Prop :=
  (18 <= target_temperature t <= 30)%Q.

(** The requests a light takes into account: the others are refused. *)
Definition light_op_accepted (op : LightOp) : bool :=
  match op with
  | LightAssignStatus s => in_on_off s
  | LightTurnOn | LightTurnOff => true
  | LightSetBrightness level => Qle_bool 0 level && Qle_bool level 100
  end.

Definition thermostat_op_accepted (op : ThermostatOp) : bool :=
  match op with
  | ThermostatAssignStatus s => in_on_off s
  | ThermostatTurnOn | ThermostatTurnOff => true
  | ThermostatSetTarget temp => Qle_bool 18 temp && Qle_bool temp 30
  end.

(** A light with the given status and brightness, its identity kept. *)
Definition light_with (st : string) (b : Q) (l : SmartLight) : SmartLight :=
  mkSmartLight
    (mkSmartDevice (device_id (light_device l)) (name (light_device l)) st)
    b.

(** The status the thermostat rule chooses. *)
Definition thermostat_status_for (t target : Q) : string :=
  if Qlt_bool (target + 1) t || Qlt_bool t (target - 1) then "on" else "off".

(** The system the lighting rule leaves, given the numeric light reading
    and the truth value of the motion reading. *)
Definition lighting_result (now lux : Q) (motion : bool)
  (s : HomeAutomationSystem) : HomeAutomationSystem :=
  if motion then
    if Qlt_bool lux 200 && (status (light_1 s) =? "off")
    then with_light_1 (light_with "on" 70 (light_1 s))
                      (with_last_motion_time now s)
    else with_last_motion_time now s
  else
    if (status (light_1 s) =? "on") && Qlt_bool 30 (now - last_motion_time s)
    then with_light_1 (light_with "off" (brightness (light_1 s)) (light_1 s))
                      s
    else s.

(** The three sensors are of the classes [initialize_components] gives
    them. *)
Definition well_classed (s : HomeAutomationSystem) : Prop :=
  sensor_class (temp_sensor_1 s) = TemperatureSensor
  /\ sensor_class (light_sensor_1 s) = LightSensor
  /\ sensor_class (motion_sensor_1 s) = MotionSensor.

(** Who the five components are: ids, names and sensor classes. *)
Definition identities (s : HomeAutomationSystem)
  : (string * string) * (string * string)
    * (SensorClass * string * string) * (SensorClass * string * string)
    * (SensorClass * string * string) :=
  let ident (x : Sensor) := (sensor_class x, sensor_id x, sensor_name x) in
  ((device_id (light_device (light_1 s)), name (light_device (light_1 s))),
   (device_id (thermostat_device (thermostat_1 s)),
    name (thermostat_device (thermostat_1 s))),
   ident (temp_sensor_1 s), ident (light_sensor_1 s),
   ident (motion_sensor_1 s)).

(** The time of the last tick with motion, [t0] if there is none. *)
Definition last_motion (envs : list TickEnv) (t0 : Q) : Q :=
  fold_left (fun t e => if choice_True_False (draws e)
                        then clock_at_rule e else t) envs t0.

(** What holds of the devices all along a run that starts from a new
    system. *)
Definition devices_invariant (s : HomeAutomationSystem) : Prop :=
  target_temperature (thermostat_1 s) = default_target_temperature
  /\ (brightness (light_1 s) = default_brightness
      \/ brightness (light_1 s) = 70%Q)
  /\ (status (light_1 s) = "on" -> brightness (light_1 s) = 70%Q)
  /\ on_or_off (status (light_1 s))
  /\ on_or_off (status (thermostat_1 s))
  /\ running s = true.

(** [ClearFlag] is among the statements the main thread has executed. *)
Definition flag_cleared (w : World) : Prop :=
  In ClearFlag (shutdown_done (main_pc w)).

(** What holds of the loop thread in every world the program reaches: it
    has exited only with [running] false, and once it has entered its loop
    [running] is false only if the main thread cleared it. *)
Definition loop_invariant (w : World) : Prop :=
  (loop_pc w = LoopExited -> running (home_system w) = false)
  /\ (loop_pc w <> LoopEntry -> running (home_system w) = false ->
      flag_cleared w).

(** The flag was cleared before the loop thread set it: the loop thread is
    at its entry, or it is in its loop with [running] true; the main thread
    has not passed the join. *)
Definition stop_lost (w : World) : Prop :=
  flag_cleared w
  /\ main_pc w <> MainJoined /\ main_pc w <> MainDone
  /\ (loop_pc w = LoopEntry
      \/ (running (home_system w) = true /\ loop_pc w <> LoopExited)).

(** The loop thread is in its loop and [running] is false. *)
Definition stopping (w : World) : Prop :=
  running (home_system w) = false /\ loop_pc w <> LoopEntry.

(** The ticks the loop thread can still run once it is [stopping]. *)
Definition ticks_left (pc : LoopPc) : nat :=
  match pc with LoopBody => 1 | _ => 0 end.

(** The statements by which a [stopping] loop thread reaches its exit. *)
Definition way_out (e : TickEnv) (pc : LoopPc) : list Label :=
  match pc with
  | LoopEntry => []
  | LoopBody => [Tick e; Wake; Test]
  | LoopSleep => [Wake; Test]
  | LoopTest => [Test]
  | LoopExited => []
  end.

(** * Properties *)

(** ** Comparisons *)

Lemma Qlt_bool_iff (x y : Q) : Qlt_bool x y = true <-> (x < y)%Q.
Proof.
  unfold Qlt_bool. rewrite negb_true_iff.
  split.
  - intro H. apply Qnot_le_lt. intro L.
    apply Qle_bool_iff in L. congruence.
  - intro H. destruct (Qle_bool y x) eqn:E; [|reflexivity].
    apply Qle_bool_iff in E. exfalso. apply (Qlt_not_le _ _ H E).
Qed.

Lemma Qlt_bool_false_iff (x y : Q) : Qlt_bool x y = false <-> (y <= x)%Q.
Proof.
  unfold Qlt_bool. rewrite negb_false_iff. apply Qle_bool_iff.
Qed.

Lemma in_on_off_true (s : string) : in_on_off s = true <-> on_or_off s.
Proof.
  unfold in_on_off, on_or_off.
  rewrite orb_true_iff, !String.eqb_eq. reflexivity.
Qed.

Lemma in_range_iff (lo hi x : Q) :
  Qle_bool lo x && Qle_bool x hi = true <-> (lo <= x <= hi)%Q.
Proof.
  rewrite andb_true_iff, !Qle_bool_iff. reflexivity.
Qed.

(** ** Devices *)

Section SetterIgnores.
Context {D : Type} `{Device D}.

Lemma status_setter_ignores (s : string) (d : D) :
  s <> "on" -> s <> "off" -> status_setter s d = (d, []).
Proof.
  intros Hon Hoff. unfold status_setter.
  destruct (in_on_off s) eqn:E; [|reflexivity].
  apply in_on_off_true in E. destruct E; contradiction.
Qed.
End SetterIgnores.

Lemma device_status_setter (s : string) (d : SmartDevice) :
  on_or_off (status d) -> on_or_off (status (fst (status_setter s d))).
Proof.
  intro Hd. unfold status_setter.
  destruct (in_on_off s) eqn:E; cbn; [|exact Hd].
  now apply in_on_off_true.
Qed.

Lemma light_status_setter (s : string) (l : SmartLight) :
  on_or_off (status l) -> on_or_off (status (fst (status_setter s l))).
Proof.
  intro Hl. unfold status_setter.
  destruct (in_on_off s) eqn:E; cbn; [|exact Hl].
  now apply in_on_off_true.
Qed.

Lemma thermostat_status_setter (s : string) (t : SmartThermostat) :
  on_or_off (status t) -> on_or_off (status (fst (status_setter s t))).
Proof.
  intro Ht. unfold status_setter.
  destruct (in_on_off s) eqn:E; cbn; [|exact Ht].
  now apply in_on_off_true.
Qed.

Lemma set_brightness_status (level : Q) (l : SmartLight) :
  status (fst (set_brightness level l)) = status l.
Proof.
  unfold set_brightness.
  destruct (Qle_bool 0 level && Qle_bool level 100); reflexivity.
Qed.

Lemma set_target_temperature_status (temp : Q) (t : SmartThermostat) :
  status (fst (set_target_temperature temp t)) = status t.
Proof.
  unfold set_target_temperature.
  destruct (Qle_bool 18 temp && Qle_bool temp 30); reflexivity.
Qed.

Lemma light_op_on_or_off (op : LightOp) (l : SmartLight) :
  on_or_off (status l) -> on_or_off (status (fst (light_op op l))).
Proof.
  intro Hl. destruct op; cbn [light_op].
  - now apply light_status_setter.
  - now apply light_status_setter.
  - now apply light_status_setter.
  - now rewrite set_brightness_status.
Qed.

Lemma thermostat_op_on_or_off (op : ThermostatOp) (t : SmartThermostat) :
  on_or_off (status t) -> on_or_off (status (fst (thermostat_op op t))).
Proof.
  intro Ht. destruct op; cbn [thermostat_op].
  - now apply thermostat_status_setter.
  - now apply thermostat_status_setter.
  - now apply thermostat_status_setter.
  - now rewrite set_target_temperature_status.
Qed.

Lemma calls_invariant {A Op : Type} (call : Op -> A -> A * list Line)
  (P : A -> Prop) :
  (forall op a, P a -> P (fst (call op a))) ->
  forall ops a, P a -> P (fst (calls call ops a)).
Proof.
  intros Hstep ops. induction ops as [|op ops IH]; intros a Ha; cbn.
  - exact Ha.
  - specialize (Hstep op a Ha).
    destruct (call op a) as [a' out]. cbn in Hstep.
    specialize (IH a' Hstep).
    destruct (calls call ops a') as [a'' out']. exact IH.
Qed.

Lemma set_brightness_accepts (b : Q) (l : SmartLight) :
  (0 <= b <= 100)%Q <->
  set_brightness b l =
    (mkSmartLight (light_device l) b,
     [BrightnessSet (name (light_device l)) b]).
Proof.
  unfold set_brightness.
  destruct (Qle_bool 0 b && Qle_bool b 100) eqn:E.
  - apply in_range_iff in E. split; [reflexivity | intros _; exact E].
  - split.
    + intro Hb. apply in_range_iff in Hb. congruence.
    + intro Heq. inversion Heq.
Qed.

Lemma set_brightness_refuses (b : Q) (l : SmartLight) :
  ~ (0 <= b <= 100)%Q <-> set_brightness b l = (l, []).
Proof.
  unfold set_brightness.
  destruct (Qle_bool 0 b && Qle_bool b 100) eqn:E.
  - apply in_range_iff in E. split.
    + intro Hb. contradiction.
    + intro Heq. inversion Heq.
  - split; [reflexivity|].
    intros _ Hb. apply in_range_iff in Hb. congruence.
Qed.

Lemma set_target_temperature_accepts (t : Q) (th : SmartThermostat) :
  (18 <= t <= 30)%Q <->
  set_target_temperature t th =
    (mkSmartThermostat (thermostat_device th) t,
     [TargetTemperatureSet (name (thermostat_device th)) t]).
Proof.
  unfold set_target_temperature.
  destruct (Qle_bool 18 t && Qle_bool t 30) eqn:E.
  - apply in_range_iff in E. split; [reflexivity | intros _; exact E].
  - split.
    + intro Ht. apply in_range_iff in Ht. congruence.
    + intro Heq. inversion Heq.
Qed.

Lemma set_target_temperature_refuses (t : Q) (th : SmartThermostat) :
  ~ (18 <= t <= 30)%Q <-> set_target_temperature t th = (th, []).
Proof.
  unfold set_target_temperature.
  destruct (Qle_bool 18 t && Qle_bool t 30) eqn:E.
  - apply in_range_iff in E. split.
    + intro Ht. contradiction.
    + intro Heq. inversion Heq.
  - split; [reflexivity|].
    intros _ Ht. apply in_range_iff in Ht. congruence.
Qed.

(** C4. For every brightness request [b], [set_brightness b] assigns the
    brightness (to [b], with its notification, the status untouched) if and
    only if [0 <= b <= 100]; for every target request [t],
    [set_target_temperature t] assigns the target if and only if
    [18 <= t <= 30].  A request outside the domain returns the device as it
    was and prints nothing; the setters are total, no request makes them
    raise. *)
Theorem setters_mutate_iff_in_domain :
  (forall b l,
      (0 <= b <= 100)%Q <->
      set_brightness b l =
        (mkSmartLight (light_device l) b,
         [BrightnessSet (name (light_device l)) b]))
  /\ (forall b l, ~ (0 <= b <= 100)%Q <-> set_brightness b l = (l, []))
  /\ (forall t th,
      (18 <= t <= 30)%Q <->
      set_target_temperature t th =
        (mkSmartThermostat (thermostat_device th) t,
         [TargetTemperatureSet (name (thermostat_device th)) t]))
  /\ (forall t th,
      ~ (18 <= t <= 30)%Q <-> set_target_temperature t th = (th, [])).
Proof.
  split; [|split; [|split]].
  - exact set_brightness_accepts.
  - exact set_brightness_refuses.
  - exact set_target_temperature_accepts.
  - exact set_target_temperature_refuses.
Qed.

Lemma device_op_on_or_off (op : DeviceOp) (d : SmartDevice) :
  on_or_off (status d) -> on_or_off (status (fst (device_op op d))).
Proof.
  intro Hd. destruct op; cbn [device_op]; now apply device_status_setter.
Qed.

(** C9, as the code has it.  Assigning to [status] a string other than "on"
    and "off" leaves the device (a light, a thermostat, a plain device) as
    it was and prints nothing; the setter and every method of a light, of a
    thermostat and of a plain device keep a status that is "on" or "off" so;
    and whatever sequence of methods is called on a freshly constructed
    light or thermostat, its status is "on" or "off".  The constructor of
    [SmartDevice] stores the status it is given as it is: a plain device
    has a status that is "on" or "off" all along when it is constructed
    with one (the default "off" is), and otherwise from its first
    [turn_on] or [turn_off]. *)
Theorem status_always_on_or_off :
  (forall s (l : SmartLight),
      s <> "on" -> s <> "off" -> status_setter s l = (l, []))
  /\ (forall s (t : SmartThermostat),
      s <> "on" -> s <> "off" -> status_setter s t = (t, []))
  /\ (forall s (d : SmartDevice),
      s <> "on" -> s <> "off" -> status_setter s d = (d, []))
  /\ (forall s (d : SmartDevice),
      on_or_off (status d) -> on_or_off (status (fst (status_setter s d))))
  /\ (forall op l,
      on_or_off (status l) -> on_or_off (status (fst (light_op op l))))
  /\ (forall op t,
      on_or_off (status t) -> on_or_off (status (fst (thermostat_op op t))))
  /\ (forall ops device_id name level,
      on_or_off
        (status (fst (calls light_op ops
                        (SmartLight_init device_id name level)))))
  /\ (forall ops device_id name temp,
      on_or_off
        (status (fst (calls thermostat_op ops
                        (SmartThermostat_init device_id name temp)))))
  /\ (forall device_id name st,
      status (SmartDevice_init device_id name st) = st)
  /\ (forall ops device_id name st,
      on_or_off st ->
      on_or_off
        (status (fst (calls device_op ops
                        (SmartDevice_init device_id name st)))))
  /\ (forall ops device_id name,
      on_or_off
        (status (fst (calls device_op ops
                        (SmartDevice_init device_id name default_status)))))
  /\ (forall d : SmartDevice, status (fst (turn_on d)) = "on")
  /\ (forall d : SmartDevice, status (fst (turn_off d)) = "off").
Proof.
  repeat apply conj.
  - intros s l. apply status_setter_ignores.
  - intros s t. apply status_setter_ignores.
  - intros s d. apply status_setter_ignores.
  - apply device_status_setter.
  - apply light_op_on_or_off.
  - apply thermostat_op_on_or_off.
  - intros ops device_id name level.
    apply (calls_invariant light_op (fun l => on_or_off (status l))).
    + apply light_op_on_or_off.
    + right. reflexivity.
  - intros ops device_id name temp.
    apply (calls_invariant thermostat_op (fun t => on_or_off (status t))).
    + apply thermostat_op_on_or_off.
    + right. reflexivity.
  - reflexivity.
  - intros ops device_id name st Hst.
    apply (calls_invariant device_op (fun d => on_or_off (status d))).
    + apply device_op_on_or_off.
    + exact Hst.
  - intros ops device_id name.
    apply (calls_invariant device_op (fun d => on_or_off (status d))).
    + apply device_op_on_or_off.
    + right. reflexivity.
  - reflexivity.
  - reflexivity.
Qed.

(** C9, as stated, fails: a plain device constructed with the status
    "standby" has that status, which is neither "on" nor "off", and keeps it
    through the assignments the setter ignores. *)
Lemma plain_device_status_unvalidated :
  let d := SmartDevice_init "fan_1" "Fan" "standby" in
  status d = "standby"
  /\ ~ on_or_off (status d)
  /\ ~ on_or_off
        (status (fst (calls device_op
                        [DeviceAssignStatus "dim"; DeviceAssignStatus "ON"]
                        d))).
Proof.
  cbn. split; [reflexivity|].
  split; intros [H | H]; discriminate H.
Qed.

(** C10. The constructors store their tunable argument as it is: for every
    [level] a new light has brightness [level], and for every [temp] a new
    thermostat has target [temp], also outside the domains of the setters.
    A light built with brightness 150 keeps it, although [set_brightness 150]
    is refused on any light; likewise a thermostat built with target 5. *)
Theorem constructors_do_not_validate :
  (forall device_id name level,
      brightness (SmartLight_init device_id name level) = level)
  /\ (forall device_id name temp,
      target_temperature (SmartThermostat_init device_id name temp) = temp)
  /\ brightness (SmartLight_init "light_1" "Living Room Light" 150) = 150%Q
  /\ (forall l, set_brightness 150 l = (l, []))
  /\ target_temperature
       (SmartThermostat_init "thermostat_1" "Main Thermostat" 5) = 5%Q
  /\ (forall t, set_target_temperature 5 t = (t, [])).
Proof.
  split; [|split; [|split; [|split; [|split]]]]; reflexivity.
Qed.

(** ** The thermostat rule *)

Lemma rule_thermostat_control_eq (s : HomeAutomationSystem) (t : Q) :
  as_number (value (temp_sensor_1 s)) = Some t ->
  let target := target_temperature (thermostat_1 s) in
  let st := if Qlt_bool (target + 1) t || Qlt_bool t (target - 1)
            then "on" else "off" in
  completion (rule_thermostat_control s) = Returns
  /\ state (rule_thermostat_control s) =
       with_thermostat_1 (thermostat_with_status st (thermostat_1 s)) s.
Proof.
  intros Ht target st. subst target st.
  unfold rule_thermostat_control. rewrite Ht.
  destruct (Qlt_bool (target_temperature (thermostat_1 s) + 1) t);
    [split; reflexivity|].
  destruct (Qlt_bool t (target_temperature (thermostat_1 s) - 1));
    split; reflexivity.
Qed.

Lemma rule_thermostat_control_status (s : HomeAutomationSystem) (t : Q) :
  as_number (value (temp_sensor_1 s)) = Some t ->
  let target := target_temperature (thermostat_1 s) in
  status (thermostat_1 (state (rule_thermostat_control s))) =
    if Qlt_bool (target + 1) t || Qlt_bool t (target - 1)
    then "on" else "off".
Proof.
  intros Ht target.
  destruct (rule_thermostat_control_eq s t Ht) as [_ ->].
  reflexivity.
Qed.

(** C1. With current temperature [t] and target [target], the thermostat
    rule returns with the thermostat on when [t > target + 1], on when
    [t < target - 1], and off in every other case, that is when
    [target - 1 <= t <= target + 1]; at [t = target + 1] and at
    [t = target - 1] it is off. *)
Theorem thermostat_rule_branches (s : HomeAutomationSystem) (t : Q) :
  as_number (value (temp_sensor_1 s)) = Some t ->
  let target := target_temperature (thermostat_1 s) in
  let after := rule_thermostat_control s in
  completion after = Returns
  /\ ((target + 1 < t)%Q -> status (thermostat_1 (state after)) = "on")
  /\ ((t < target - 1)%Q -> status (thermostat_1 (state after)) = "on")
  /\ (~ (target + 1 < t)%Q -> ~ (t < target - 1)%Q ->
      status (thermostat_1 (state after)) = "off")
  /\ ((target - 1 <= t <= target + 1)%Q ->
      status (thermostat_1 (state after)) = "off")
  /\ ((t == target + 1)%Q -> status (thermostat_1 (state after)) = "off")
  /\ ((t == target - 1)%Q -> status (thermostat_1 (state after)) = "off").
Proof.
  intros Ht target after. subst after.
  split; [apply (rule_thermostat_control_eq s t Ht)|].
  rewrite (rule_thermostat_control_status s t Ht). fold target.
  assert (Hoff : (target - 1 <= t <= target + 1)%Q ->
                 (if Qlt_bool (target + 1) t || Qlt_bool t (target - 1)
                  then "on" else "off") = "off").
  { intros [Hlo Hhi].
    apply Qlt_bool_false_iff in Hlo. apply Qlt_bool_false_iff in Hhi.
    now rewrite Hlo, Hhi. }
  split; [|split; [|split; [|split; [|split]]]].
  - intro H. apply Qlt_bool_iff in H. now rewrite H.
  - intro H. apply Qlt_bool_iff in H. rewrite H.
    now rewrite orb_true_r.
  - intros Hc Hh. apply Hoff. split.
    + now apply Qnot_lt_le.
    + now apply Qnot_lt_le.
  - exact Hoff.
  - intro E. apply Hoff. rewrite E. split; lra.
  - intro E. apply Hoff. rewrite E. split; lra.
Qed.

Lemma Qlt_bool_compat (x x' y y' : Q) :
  (x == x')%Q -> (y == y')%Q -> Qlt_bool x y = Qlt_bool x' y'.
Proof.
  intros Hx Hy.
  destruct (Qlt_bool x' y') eqn:E.
  - apply Qlt_bool_iff. apply Qlt_bool_iff in E. now rewrite Hx, Hy.
  - apply Qlt_bool_false_iff. apply Qlt_bool_false_iff in E.
    now rewrite Hx, Hy.
Qed.

Lemma rule_thermostat_control_twice (s : HomeAutomationSystem) :
  rule_thermostat_control (state (rule_thermostat_control s)) =
  rule_thermostat_control s.
Proof.
  unfold rule_thermostat_control.
  destruct (as_number (value (temp_sensor_1 s))) as [t|] eqn:Ht.
  - destruct (Qlt_bool (target_temperature (thermostat_1 s) + 1) t) eqn:E1.
    + cbn. rewrite Ht, E1. reflexivity.
    + destruct (Qlt_bool t (target_temperature (thermostat_1 s) - 1)) eqn:E2.
      * cbn. rewrite Ht, E1, E2. reflexivity.
      * cbn. rewrite Ht, E1, E2. reflexivity.
  - cbn. rewrite Ht. reflexivity.
Qed.

(** C8. The status the thermostat rule leaves depends on the current
    temperature and the target only: two systems with equal readings and
    equal targets end with the same thermostat status, whatever else
    differs (the previous status included).  The rule is idempotent:
    applied a second time with the readings unchanged, it ends as the first
    application did, with the same system and so the same status. *)
Theorem thermostat_rule_pure_and_idempotent :
  (forall s s' t t',
      as_number (value (temp_sensor_1 s)) = Some t ->
      as_number (value (temp_sensor_1 s')) = Some t' ->
      (t == t')%Q ->
      (target_temperature (thermostat_1 s) ==
       target_temperature (thermostat_1 s'))%Q ->
      status (thermostat_1 (state (rule_thermostat_control s))) =
      status (thermostat_1 (state (rule_thermostat_control s'))))
  /\ (forall s,
      temp_sensor_1 (state (rule_thermostat_control s)) = temp_sensor_1 s
      /\ target_temperature (thermostat_1 (state (rule_thermostat_control s)))
         = target_temperature (thermostat_1 s))
  /\ (forall s,
      rule_thermostat_control (state (rule_thermostat_control s)) =
      rule_thermostat_control s)
  /\ (forall s,
      status (thermostat_1
                (state (rule_thermostat_control
                          (state (rule_thermostat_control s))))) =
      status (thermostat_1 (state (rule_thermostat_control s)))).
Proof.
  split; [|split; [|split]].
  - intros s s' t t' Ht Ht' Et Etarget.
    rewrite (rule_thermostat_control_status s t Ht).
    rewrite (rule_thermostat_control_status s' t' Ht').
    rewrite (Qlt_bool_compat
               (target_temperature (thermostat_1 s) + 1)
               (target_temperature (thermostat_1 s') + 1) t t').
    + rewrite (Qlt_bool_compat t t'
                 (target_temperature (thermostat_1 s) - 1)
                 (target_temperature (thermostat_1 s') - 1)).
      * reflexivity.
      * exact Et.
      * now rewrite Etarget.
    + now rewrite Etarget.
    + exact Et.
  - intro s. unfold rule_thermostat_control.
    destruct (as_number (value (temp_sensor_1 s))) as [t|];
      [|split; reflexivity].
    destruct (Qlt_bool (target_temperature (thermostat_1 s) + 1) t);
      [split; reflexivity|].
    destruct (Qlt_bool t (target_temperature (thermostat_1 s) - 1));
      split; reflexivity.
  - exact rule_thermostat_control_twice.
  - intro s. now rewrite rule_thermostat_control_twice.
Qed.

(** ** The lighting rule *)

Lemma rule_lighting_control_motion_time (now : Q) (s : HomeAutomationSystem) :
  truthy (value (motion_sensor_1 s)) = true ->
  last_motion_time (state (rule_lighting_control now s)) = now.
Proof.
  intro Hm. unfold rule_lighting_control. rewrite Hm.
  destruct (as_number (value (light_sensor_1 s))) as [lux|]; [|reflexivity].
  destruct (Qlt_bool lux 200 && (status (light_1 s) =? "off"));
    reflexivity.
Qed.

(** C2. When the motion reading is true, the lighting rule always sets
    [last_motion_time] to the current time (also when it then fails on a
    missing light reading).  With a light reading [lux]: the rule returns;
    if [lux < 200] and the light is off, the light ends on with brightness
    70; if [lux >= 200] or the light is on, the light (status and
    brightness) is as it was and nothing is printed. *)
Theorem lighting_rule_with_motion (now : Q) (s : HomeAutomationSystem) :
  truthy (value (motion_sensor_1 s)) = true ->
  let after := rule_lighting_control now s in
  last_motion_time (state after) = now
  /\ forall lux,
      as_number (value (light_sensor_1 s)) = Some lux ->
      completion after = Returns
      /\ ((lux < 200)%Q -> status (light_1 s) = "off" ->
          status (light_1 (state after)) = "on"
          /\ brightness (light_1 (state after)) = 70%Q)
      /\ ((200 <= lux)%Q \/ status (light_1 s) = "on" ->
          light_1 (state after) = light_1 s
          /\ printed after = []).
Proof.
  intros Hm after. subst after.
  split; [now apply rule_lighting_control_motion_time|].
  intros lux Hlux.
  unfold rule_lighting_control. rewrite Hm, Hlux.
  destruct (Qlt_bool lux 200) eqn:Elux;
    destruct (status (light_1 s) =? "off") eqn:Est; cbn.
  - split; [reflexivity|]. split; [intros _ _; split; reflexivity|].
    apply String.eqb_eq in Est.
    intros [Hge | Hon].
    + apply Qlt_bool_iff in Elux. exfalso. apply (Qlt_not_le _ _ Elux Hge).
    + rewrite Hon in Est. discriminate.
  - split; [reflexivity|]. split; [|intros _; split; reflexivity].
    apply String.eqb_neq in Est. intros _ Hoff. contradiction.
  - split; [reflexivity|]. split; [|intros _; split; reflexivity].
    apply Qlt_bool_false_iff in Elux.
    intros Hlt _. exfalso. apply (Qlt_not_le _ _ Hlt Elux).
  - split; [reflexivity|]. split; [|intros _; split; reflexivity].
    apply String.eqb_neq in Est. intros _ Hoff. contradiction.
Qed.

(** C3. When the motion reading is false, the lighting rule returns, and it
    turns the light off exactly when the light is on and the time since
    [last_motion_time] is more than 30 seconds: then the light ends off (its
    brightness kept) and the rest of the system is untouched.  When the
    elapsed time is at most 30 seconds, or the light is off, the rule leaves
    the whole system as it was and prints nothing. *)
Theorem lighting_rule_without_motion (now : Q) (s : HomeAutomationSystem) :
  truthy (value (motion_sensor_1 s)) = false ->
  let elapsed := (now - last_motion_time s)%Q in
  let after := rule_lighting_control now s in
  completion after = Returns
  /\ (status (light_1 s) = "on" /\ (30 < elapsed)%Q <->
      after = ret (with_light_1 (fst (turn_off (light_1 s))) s)
                  (NoMotionTurningOff :: snd (turn_off (light_1 s))))
  /\ (status (light_1 s) = "on" -> (30 < elapsed)%Q ->
      status (light_1 (state after)) = "off"
      /\ brightness (light_1 (state after)) = brightness (light_1 s))
  /\ ((elapsed <= 30)%Q \/ status (light_1 s) = "off" -> after = ret s []).
Proof.
  intros Hm elapsed after. subst after elapsed.
  unfold rule_lighting_control. rewrite Hm.
  destruct (status (light_1 s) =? "on") eqn:Est;
    destruct (Qlt_bool 30 (now - last_motion_time s)) eqn:Eel; cbn.
  - apply String.eqb_eq in Est. apply Qlt_bool_iff in Eel.
    split; [reflexivity|]. split; [split; [reflexivity|now split]|].
    split; [intros _ _; split; reflexivity|].
    intros [Hle | Hoff].
    + exfalso. apply (Qlt_not_le _ _ Eel Hle).
    + rewrite Hoff in Est. discriminate.
  - apply Qlt_bool_false_iff in Eel.
    split; [reflexivity|]. split; [split|].
    + intros [_ Hlt]. exfalso. apply (Qlt_not_le _ _ Hlt Eel).
    + intro Heq. inversion Heq.
    + split; [|reflexivity].
      intros _ Hlt. exfalso. apply (Qlt_not_le _ _ Hlt Eel).
  - apply String.eqb_neq in Est.
    split; [reflexivity|]. split; [split|].
    + intros [Hon _]. contradiction.
    + intro Heq. inversion Heq.
    + split; [|reflexivity]. intros Hon _. contradiction.
  - apply String.eqb_neq in Est.
    split; [reflexivity|]. split; [split|].
    + intros [Hon _]. contradiction.
    + intro Heq. inversion Heq.
    + split; [|reflexivity]. intros Hon _. contradiction.
Qed.

(** ** Rounding *)

Lemma round_half_even_bounds (x : Q) :
  (Qfloor x <= round_half_even x <= Qfloor x + 1)%Z.
Proof.
  unfold round_half_even.
  destruct (Qcompare (x - inject_Z (Qfloor x)) (1 # 2)); try lia.
  destruct (Z.even (Qfloor x)); lia.
Qed.

Lemma round_half_even_mono (x y : Q) :
  (x <= y)%Q -> (round_half_even x <= round_half_even y)%Z.
Proof.
  intro Hxy.
  pose proof (Qfloor_resp_le x y Hxy) as Hfloor.
  destruct (Z.eq_dec (Qfloor x) (Qfloor y)) as [Heq | Hneq].
  - unfold round_half_even. rewrite <- Heq.
    set (f := Qfloor x).
    destruct (Qcompare (x - inject_Z f) (1 # 2)) eqn:Cx;
      destruct (Qcompare (y - inject_Z f) (1 # 2)) eqn:Cy;
      try (destruct (Z.even f); lia); try lia.
    + apply Qeq_alt in Cx. apply Qlt_alt in Cy. exfalso. lra.
    + apply Qgt_alt in Cx. apply Qeq_alt in Cy. exfalso. lra.
    + apply Qgt_alt in Cx. apply Qlt_alt in Cy. exfalso. lra.
  - pose proof (round_half_even_bounds x).
    pose proof (round_half_even_bounds y).
    lia.
Qed.

Lemma round_half_even_comp (x y : Q) :
  (x == y)%Q -> round_half_even x = round_half_even y.
Proof.
  intro Hxy. unfold round_half_even.
  assert (Hf : Qfloor x = Qfloor y) by now rewrite Hxy.
  rewrite Hf.
  assert (Hc : Qcompare (x - inject_Z (Qfloor y)) (1 # 2) =
               Qcompare (y - inject_Z (Qfloor y)) (1 # 2))
    by now rewrite Hxy.
  now rewrite Hc.
Qed.

Lemma round_half_even_error (y : Q) :
  (y - (1 # 2) <= inject_Z (round_half_even y) <= y + (1 # 2))%Q.
Proof.
  pose proof (Qfloor_le y) as Hlo.
  pose proof (Qlt_floor y) as Hhi.
  rewrite inject_Z_plus in Hhi. change (inject_Z 1) with 1%Q in Hhi.
  unfold round_half_even.
  destruct (Qcompare (y - inject_Z (Qfloor y)) (1 # 2)) eqn:C.
  - apply Qeq_alt in C.
    destruct (Z.even (Qfloor y)).
    + split; lra.
    + rewrite inject_Z_plus. change (inject_Z 1) with 1%Q. split; lra.
  - apply Qlt_alt in C. split; lra.
  - apply Qgt_alt in C.
    rewrite inject_Z_plus. change (inject_Z 1) with 1%Q. split; lra.
Qed.

Lemma round_half_even_Z (n : Z) : round_half_even (inject_Z n) = n.
Proof.
  unfold round_half_even. rewrite Qfloor_Z.
  assert (C : Qcompare (inject_Z n - inject_Z n) (1 # 2) = Lt).
  { apply (proj1 (Qlt_alt _ _)). lra. }
  now rewrite C.
Qed.

Lemma two_to_pos (z : Z) : (0 < 2 ^ z)%Q.
Proof. apply Qpower_0_lt. reflexivity. Qed.

Lemma two_to_plus (a b : Z) : (2 ^ (a + b) == 2 ^ a * 2 ^ b)%Q.
Proof. apply Qpower_plus. discriminate. Qed.

Lemma two_to_le (a b : Z) : (a <= b)%Z -> (2 ^ a <= 2 ^ b)%Q.
Proof. intro H. apply Qpower_le_compat_l; [exact H | discriminate]. Qed.

Lemma two_to_Z (n : Z) : (0 <= n)%Z -> (inject_Z (2 ^ n) == 2 ^ n)%Q.
Proof. intro H. apply (Zpower_Qpower 2 n H). Qed.

Lemma binade_spec (x : Q) :
  (0 < x)%Q -> (2 ^ binade x <= x < 2 ^ (binade x + 1))%Q.
Proof.
  intro Hx. destruct x as [n d].
  assert (Hn : (0 < n)%Z).
  { unfold Qlt in Hx. cbn in Hx. lia. }
  unfold binade. cbn [Qnum Qden].
  set (a1 := Z.log2 n). set (b1 := Z.log2 (Z.pos d)).
  pose proof (Z.log2_spec n Hn) as [Hn1 Hn2]. fold a1 in Hn1, Hn2.
  pose proof (Z.log2_spec (Z.pos d) (Pos2Z.is_pos d)) as [Hd1 Hd2].
  fold b1 in Hd1, Hd2.
  assert (Ha1 : (0 <= a1)%Z) by apply Z.log2_nonneg.
  assert (Hb1 : (0 <= b1)%Z) by apply Z.log2_nonneg.
  assert (Qn1 : (2 ^ a1 <= inject_Z n)%Q).
  { rewrite <- two_to_Z by lia. now rewrite <- Zle_Qle. }
  assert (Qn2 : (inject_Z n < 2 ^ (a1 + 1))%Q).
  { rewrite <- two_to_Z by lia. rewrite <- Zlt_Qlt.
    now rewrite <- Z.add_1_r in Hn2. }
  assert (Qd1 : (2 ^ b1 <= inject_Z (Z.pos d))%Q).
  { rewrite <- two_to_Z by lia. now rewrite <- Zle_Qle. }
  assert (Qd2 : (inject_Z (Z.pos d) < 2 ^ (b1 + 1))%Q).
  { rewrite <- two_to_Z by lia. rewrite <- Zlt_Qlt.
    now rewrite <- Z.add_1_r in Hd2. }
  assert (Hxd : (n # d) * inject_Z (Z.pos d) == inject_Z n).
  { unfold Qeq, Qmult, inject_Z. cbn. lia. }
  assert (Dpos : 0 < inject_Z (Z.pos d)) by (unfold Qlt; cbn; lia).
  assert (Up : (n # d) < 2 ^ (a1 - b1 + 1)).
  { apply (Qmult_lt_r _ _ (inject_Z (Z.pos d)) Dpos). rewrite Hxd.
    apply (Qlt_le_trans _ _ _ Qn2).
    replace (a1 + 1)%Z with ((a1 - b1 + 1) + b1)%Z by lia.
    rewrite two_to_plus.
    apply Qmult_le_l; [apply two_to_pos | exact Qd1]. }
  assert (Lo : 2 ^ (a1 - b1 - 1) <= (n # d)).
  { apply (Qmult_le_r _ _ (inject_Z (Z.pos d)) Dpos). rewrite Hxd.
    apply (Qle_trans _ _ _ ) with (2 := Qn1).
    replace a1 with ((a1 - b1 - 1) + (b1 + 1))%Z at 2 by lia.
    rewrite two_to_plus.
    apply Qmult_le_l; [apply two_to_pos | apply Qlt_le_weak, Qd2]. }
  destruct (Qle_bool (2 ^ (a1 - b1)) (n # d)) eqn:E.
  - apply Qle_bool_iff in E. split; [exact E | exact Up].
  - split; [exact Lo|].
    replace (a1 - b1 - 1 + 1)%Z with (a1 - b1)%Z by lia.
    apply Qnot_le_lt. intro H. apply Qle_bool_iff in H. congruence.
Qed.

Lemma binade_mono (x y : Q) :
  (0 < x)%Q -> (x <= y)%Q -> (binade x <= binade y)%Z.
Proof.
  intros Hx Hxy.
  assert (Hy : 0 < y) by (apply (Qlt_le_trans _ x); assumption).
  destruct (binade_spec x Hx) as [Lx _].
  destruct (binade_spec y Hy) as [_ Uy].
  assert (H : 2 ^ binade x < 2 ^ (binade y + 1)).
  { apply (Qle_lt_trans _ x); [exact Lx|].
    apply (Qle_lt_trans _ y); assumption. }
  apply Qpower_lt_compat_l_inv in H; [lia | reflexivity].
Qed.

Lemma round_to_multiple_mono (u x y : Q) :
  (0 < u)%Q -> (x <= y)%Q ->
  (round_to_multiple u x <= round_to_multiple u y)%Q.
Proof.
  intros Hu Hxy. unfold round_to_multiple.
  apply Qmult_le_compat_r; [|apply Qlt_le_weak, Hu].
  rewrite <- Zle_Qle. apply round_half_even_mono.
  apply Qmult_le_compat_r; [exact Hxy|].
  apply Qlt_le_weak, Qinv_lt_0_compat, Hu.
Qed.

Lemma round_to_multiple_exact (u : Q) (n : Z) :
  (0 < u)%Q ->
  (round_to_multiple u (inject_Z n * u) == inject_Z n * u)%Q.
Proof.
  intro Hu. unfold round_to_multiple.
  assert (E : inject_Z n * u / u == inject_Z n).
  { apply Qdiv_mult_l. intro H. rewrite H in Hu. discriminate Hu. }
  rewrite (round_half_even_comp _ _ E), round_half_even_Z. reflexivity.
Qed.

Lemma round_to_multiple_error (u x : Q) :
  (0 < u)%Q ->
  (x - u * (1 # 2) <= round_to_multiple u x <= x + u * (1 # 2))%Q.
Proof.
  intro Hu. unfold round_to_multiple.
  destruct (round_half_even_error (x / u)) as [Lo Hi].
  assert (Nu : ~ u == 0) by (intro H; rewrite H in Hu; discriminate Hu).
  split.
  - apply (Qmult_le_compat_r _ _ u) in Lo; [|apply Qlt_le_weak, Hu].
    assert (E1 : (x / u - (1 # 2)) * u == x - u * (1 # 2)) by (field; exact Nu).
    now rewrite E1 in Lo.
  - apply (Qmult_le_compat_r _ _ u) in Hi; [|apply Qlt_le_weak, Hu].
    assert (E1 : (x / u + (1 # 2)) * u == x + u * (1 # 2)) by (field; exact Nu).
    now rewrite E1 in Hi.
Qed.

Lemma ulp_times (e n : Z) :
  (0 <= n)%Z -> (inject_Z (2 ^ n) * 2 ^ (e - 52) == 2 ^ (e - 52 + n))%Q.
Proof.
  intro Hn. rewrite two_to_Z by exact Hn.
  rewrite two_to_plus. apply Qmult_comm.
Qed.

Lemma nearest_double_pos_eq (x : Q) :
  (nearest_double_pos x == round_to_multiple (2 ^ (binade x - 52)) x)%Q.
Proof. unfold nearest_double_pos. apply Qred_correct. Qed.

Lemma nearest_double_pos_bounds (x : Q) :
  (0 < x)%Q ->
  (2 ^ binade x <= nearest_double_pos x <= 2 ^ (binade x + 1))%Q.
Proof.
  intro Hx. destruct (binade_spec x Hx) as [Lo Hi].
  rewrite nearest_double_pos_eq.
  set (e := binade x) in *. set (u := 2 ^ (e - 52)).
  assert (Hu : 0 < u) by apply two_to_pos.
  assert (E52 : inject_Z (2 ^ 52) * u == 2 ^ e).
  { unfold u. rewrite ulp_times by lia. now replace (e - 52 + 52)%Z with e by lia. }
  assert (E53 : inject_Z (2 ^ 53) * u == 2 ^ (e + 1)).
  { unfold u. rewrite ulp_times by lia.
    now replace (e - 52 + 53)%Z with (e + 1)%Z by lia. }
  split.
  - rewrite <- E52 at 1. rewrite <- (round_to_multiple_exact u (2 ^ 52) Hu).
    apply round_to_multiple_mono; [exact Hu | now rewrite E52].
  - rewrite <- E53. rewrite <- (round_to_multiple_exact u (2 ^ 53) Hu).
    apply round_to_multiple_mono; [exact Hu|].
    rewrite E53. apply Qlt_le_weak, Hi.
Qed.

Lemma nearest_double_pos_mono (x y : Q) :
  (0 < x)%Q -> (x <= y)%Q ->
  (nearest_double_pos x <= nearest_double_pos y)%Q.
Proof.
  intros Hx Hxy.
  assert (Hy : 0 < y) by (apply (Qlt_le_trans _ x); assumption).
  pose proof (binade_mono x y Hx Hxy) as He.
  destruct (Z.eq_dec (binade x) (binade y)) as [E | N].
  - rewrite !nearest_double_pos_eq, E.
    apply round_to_multiple_mono; [apply two_to_pos | exact Hxy].
  - destruct (nearest_double_pos_bounds x Hx) as [_ Ux].
    destruct (nearest_double_pos_bounds y Hy) as [Ly _].
    apply (Qle_trans _ _ _ Ux). apply (Qle_trans _ _ _ ) with (2 := Ly).
    apply two_to_le. lia.
Qed.

Lemma nearest_double_pos_pos (x : Q) :
  (0 < x)%Q -> (0 < nearest_double_pos x)%Q.
Proof.
  intro Hx. destruct (nearest_double_pos_bounds x Hx) as [L _].
  apply (Qlt_le_trans _ _ _ (two_to_pos (binade x)) L).
Qed.

Lemma Qcompare_cases (x : Q) :
  (Qcompare x 0 = Eq /\ x == 0)
  \/ (Qcompare x 0 = Lt /\ x < 0)
  \/ (Qcompare x 0 = Gt /\ 0 < x).
Proof.
  destruct (Qcompare x 0) eqn:C.
  - left. split; [reflexivity | now apply Qeq_alt].
  - right. left. split; [reflexivity | now apply Qlt_alt].
  - right. right. split; [reflexivity | now apply Qgt_alt].
Qed.

Lemma nearest_double_mono (x y : Q) :
  (x <= y)%Q -> (nearest_double x <= nearest_double y)%Q.
Proof.
  intro Hxy. unfold nearest_double.
  destruct (Qcompare_cases x) as [[-> Cx] | [[-> Cx] | [-> Cx]]];
    destruct (Qcompare_cases y) as [[-> Cy] | [[-> Cy] | [-> Cy]]].
  - apply Qle_refl.
  - exfalso. lra.
  - apply Qlt_le_weak, nearest_double_pos_pos, Cy.
  - assert (H : 0 < nearest_double_pos (- x))
      by (apply nearest_double_pos_pos; lra).
    lra.
  - assert (H : nearest_double_pos (- y) <= nearest_double_pos (- x))
      by (apply nearest_double_pos_mono; lra).
    lra.
  - assert (H : 0 < nearest_double_pos (- x))
      by (apply nearest_double_pos_pos; lra).
    assert (H' : 0 < nearest_double_pos y)
      by (apply nearest_double_pos_pos; lra).
    lra.
  - exfalso. lra.
  - exfalso. lra.
  - apply nearest_double_pos_mono; [exact Cx | exact Hxy].
Qed.

Lemma round2_mono (x y : Q) : (x <= y)%Q -> (round2 x <= round2 y)%Q.
Proof.
  intro Hxy. unfold round2. apply nearest_double_mono.
  unfold Qle. cbn.
  apply Z.mul_le_mono_nonneg_r; [lia|].
  apply round_half_even_mono. lra.
Qed.

Lemma nearest_double_pos_error (x : Q) :
  (0 < x)%Q ->
  (x - x * (1 # 2 ^ 53) <= nearest_double_pos x <= x + x * (1 # 2 ^ 53))%Q.
Proof.
  intro Hx. destruct (binade_spec x Hx) as [Lo _].
  rewrite nearest_double_pos_eq.
  set (e := binade x) in *. set (u := 2 ^ (e - 52)).
  assert (Hu : 0 < u) by apply two_to_pos.
  destruct (round_to_multiple_error u x Hu) as [L H].
  assert (E : u * (1 # 2) == 2 ^ e * (1 # 2 ^ 53)).
  { unfold u. replace (e - 52)%Z with (e + - 52)%Z by lia.
    rewrite two_to_plus. rewrite <- Qmult_assoc.
    apply Qmult_comp; [reflexivity | reflexivity]. }
  assert (B : u * (1 # 2) <= x * (1 # 2 ^ 53)).
  { rewrite E. apply Qmult_le_compat_r; [exact Lo | discriminate]. }
  split; lra.
Qed.

Lemma nearest_double_error (x : Q) :
  (Qabs (nearest_double x - x) <= Qabs x * (1 # 2 ^ 53))%Q.
Proof.
  unfold nearest_double.
  destruct (Qcompare_cases x) as [[-> C] | [[-> C] | [-> C]]].
  - rewrite C. discriminate.
  - assert (Hx : 0 < - x) by lra.
    destruct (nearest_double_pos_error (- x) Hx) as [L H].
    rewrite (Qabs_neg x) by lra.
    apply Qabs_Qle_condition. split; lra.
  - destruct (nearest_double_pos_error x C) as [L H].
    rewrite (Qabs_pos x) by lra.
    apply Qabs_Qle_condition. split; lra.
Qed.

(** ** The recorded series *)

Lemma rule_thermostat_control_series (s : HomeAutomationSystem) :
  series (state (rule_thermostat_control s)) = series s
  /\ start_time (state (rule_thermostat_control s)) = start_time s.
Proof.
  unfold rule_thermostat_control.
  destruct (as_number (value (temp_sensor_1 s))) as [t|];
    [|split; reflexivity].
  destruct (Qlt_bool (target_temperature (thermostat_1 s) + 1) t);
    [split; reflexivity|].
  destruct (Qlt_bool t (target_temperature (thermostat_1 s) - 1));
    split; reflexivity.
Qed.

Lemma rule_lighting_control_series (now : Q) (s : HomeAutomationSystem) :
  series (state (rule_lighting_control now s)) = series s
  /\ start_time (state (rule_lighting_control now s)) = start_time s.
Proof.
  unfold rule_lighting_control.
  destruct (truthy (value (motion_sensor_1 s))).
  - destruct (as_number (value (light_sensor_1 s))) as [lux|];
      [|split; reflexivity].
    destruct (Qlt_bool lux 200 && (status (light_1 s) =? "off"));
      split; reflexivity.
  - destruct ((status (light_1 s) =? "on")
              && Qlt_bool 30 (now - last_motion_time s));
      split; reflexivity.
Qed.

Lemma as_number_read_value (r : Random) (sensor : Sensor) :
  exists q, as_number (value (read_value r sensor)) = Some q.
Proof.
  unfold read_value. destruct (sensor_class sensor); cbn; eauto.
Qed.

Lemma andThen_state_returns (o : Outcome)
  (k : HomeAutomationSystem -> Outcome) :
  completion o = Returns ->
  state (o ;; k) = state (k (state o))
  /\ completion (o ;; k) = completion (k (state o)).
Proof.
  intro Ho. unfold andThen. rewrite Ho. split; reflexivity.
Qed.

Lemma process_sensor_data_rules (e : TickEnv) (s : HomeAutomationSystem) :
  let s2 := poll_and_record e s in
  let s3 := state (rule_thermostat_control s2) in
  completion (rule_thermostat_control s2) = Returns
  /\ completion (process_sensor_data e s) =
       completion (rule_lighting_control (clock_at_rule e) s3)
  /\ state (process_sensor_data e s) =
       state (rule_lighting_control (clock_at_rule e) s3).
Proof.
  intros s2 s3.
  assert (H1 : completion (rule_thermostat_control s2) = Returns).
  { destruct (as_number_read_value (draws e) (temp_sensor_1 s)) as [q Hq].
    apply (rule_thermostat_control_eq s2 q). exact Hq. }
  split; [exact H1|].
  unfold process_sensor_data. cbn zeta. fold (poll_and_record e s). fold s2.
  unfold andThen. cbn [completion state ret]. rewrite H1. cbn.
  split; reflexivity.
Qed.

(** A tick never raises: the three sensors have just been read. *)
Lemma process_sensor_data_returns (e : TickEnv) (s : HomeAutomationSystem) :
  completion (process_sensor_data e s) = Returns.
Proof.
  destruct (process_sensor_data_rules e s) as (_ & -> & _).
  set (s2 := poll_and_record e s).
  set (s3 := state (rule_thermostat_control s2)).
  assert (Hl : light_sensor_1 s3 = read_value (draws e) (light_sensor_1 s)).
  { subst s3. unfold rule_thermostat_control.
    destruct (as_number (value (temp_sensor_1 s2))) as [t|];
      [|reflexivity].
    destruct (Qlt_bool (target_temperature (thermostat_1 s2) + 1) t);
      [reflexivity|].
    destruct (Qlt_bool t (target_temperature (thermostat_1 s2) - 1));
      reflexivity. }
  unfold rule_lighting_control. rewrite Hl.
  destruct (as_number_read_value (draws e) (light_sensor_1 s)) as [lux ->].
  destruct (truthy (value (motion_sensor_1 s3))).
  - destruct (Qlt_bool lux 200 && (status (light_1 s3) =? "off"));
      reflexivity.
  - destruct ((status (light_1 s3) =? "on")
              && Qlt_bool 30 (clock_at_rule e - last_motion_time s3));
      reflexivity.
Qed.

Lemma appended_refl {A : Type} (l : list A) : appended 0 l l.
Proof. exists []. split; [now rewrite app_nil_r | reflexivity]. Qed.

Lemma appended_trans {A : Type} (j k : nat) (l1 l2 l3 : list A) :
  appended j l1 l2 -> appended k l2 l3 -> appended (j + k) l1 l3.
Proof.
  intros [a [-> Ha]] [b [-> Hb]].
  exists (a ++ b). split.
  - now rewrite app_assoc.
  - rewrite length_app. lia.
Qed.

Lemma rows_appended_refl (s : HomeAutomationSystem) : rows_appended 0 s s.
Proof. repeat split; apply appended_refl. Qed.

Lemma rows_appended_trans (j k : nat) (s1 s2 s3 : HomeAutomationSystem) :
  rows_appended j s1 s2 -> rows_appended k s2 s3 ->
  rows_appended (j + k) s1 s3.
Proof.
  intros (A1 & A2 & A3 & A4) (B1 & B2 & B3 & B4).
  repeat split; eapply appended_trans; eassumption.
Qed.

Lemma rows_appended_series (k : nat) (s s' s'' : HomeAutomationSystem) :
  series s'' = series s' -> rows_appended k s s' -> rows_appended k s s''.
Proof.
  unfold series, rows_appended. intros Heq. inversion Heq as [[E1 E2 E3 E4]].
  now rewrite E1, E2, E3, E4.
Qed.

(** One tick appends one row, stamped with the rounded time since
    [start_time], and leaves [start_time] alone. *)
Lemma process_sensor_data_row (e : TickEnv) (s : HomeAutomationSystem) :
  let s' := state (process_sensor_data e s) in
  timestamps s' = timestamps s ++ [round2 (clock_at_tick e - start_time s)]
  /\ rows_appended 1 s s'
  /\ start_time s' = start_time s.
Proof.
  cbn zeta.
  destruct (process_sensor_data_rules e s) as (_ & _ & ->).
  set (s2 := poll_and_record e s).
  destruct (rule_lighting_control_series (clock_at_rule e)
              (state (rule_thermostat_control s2))) as [L1 L2].
  destruct (rule_thermostat_control_series s2) as [T1 T2].
  assert (Hser : series (state (rule_lighting_control (clock_at_rule e)
                   (state (rule_thermostat_control s2)))) = series s2).
  { rewrite L1, T1. reflexivity. }
  split; [|split].
  - unfold series in Hser. inversion Hser as [[E1 E2 E3 E4]].
    rewrite E1. reflexivity.
  - apply (rows_appended_series 1 s s2 _ Hser).
    repeat split; eexists; (split; [reflexivity|reflexivity]).
  - rewrite L2, T2. reflexivity.
Qed.

Lemma loop_iterations_returns (envs : list TickEnv) (s : HomeAutomationSystem) :
  completion (loop_iterations envs s) = Returns.
Proof.
  revert s. induction envs as [|e envs IH]; intro s; cbn [loop_iterations].
  - reflexivity.
  - destruct (andThen_state_returns (process_sensor_data e s)
                (loop_iterations envs) (process_sensor_data_returns e s))
      as [_ ->].
    apply IH.
Qed.

Lemma loop_iterations_cons (e : TickEnv) (envs : list TickEnv)
  (s : HomeAutomationSystem) :
  state (loop_iterations (e :: envs) s) =
  state (loop_iterations envs (state (process_sensor_data e s))).
Proof.
  cbn [loop_iterations].
  apply (andThen_state_returns (process_sensor_data e s)
           (loop_iterations envs) (process_sensor_data_returns e s)).
Qed.

Lemma loop_iterations_app (done rest : list TickEnv)
  (s : HomeAutomationSystem) :
  state (loop_iterations (done ++ rest) s) =
  state (loop_iterations rest (state (loop_iterations done s))).
Proof.
  revert s. induction done as [|e done IH]; intro s.
  - reflexivity.
  - rewrite <- app_comm_cons, !loop_iterations_cons. apply IH.
Qed.

Lemma loop_iterations_rows (envs : list TickEnv) (s : HomeAutomationSystem) :
  let s' := state (loop_iterations envs s) in
  timestamps s' =
    timestamps s
    ++ map (fun e => round2 (clock_at_tick e - start_time s)) envs
  /\ rows_appended (length envs) s s'
  /\ start_time s' = start_time s.
Proof.
  revert s. induction envs as [|e envs IH]; intro s.
  - cbn. split; [now rewrite app_nil_r|].
    split; [apply rows_appended_refl | reflexivity].
  - cbn zeta. rewrite loop_iterations_cons.
    destruct (process_sensor_data_row e s) as (P1 & P2 & P3).
    destruct (IH (state (process_sensor_data e s))) as (I1 & I2 & I3).
    split; [|split].
    + rewrite I1, P1, P3. cbn [map]. now rewrite <- app_assoc.
    + apply (rows_appended_trans 1 (length envs) _ _ _ P2 I2).
    + now rewrite I3.
Qed.

Lemma non_decreasing_map (f : Q -> Q) (l : list Q) :
  (forall x y, (x <= y)%Q -> (f x <= f y)%Q) ->
  non_decreasing l -> non_decreasing (map f l).
Proof.
  intros Hf Hl. unfold non_decreasing in *.
  induction Hl as [|x l Hl IH Hx]; cbn.
  - constructor.
  - constructor; [exact IH|].
    apply Forall_forall. intros y Hy.
    apply in_map_iff in Hy. destruct Hy as [z [<- Hz]].
    apply Hf. rewrite Forall_forall in Hx. now apply Hx.
Qed.

Lemma start_monitoring_state (envs : list TickEnv) (s : HomeAutomationSystem) :
  completion (start_monitoring envs s) = Returns
  /\ state (start_monitoring envs s) =
       state (loop_iterations envs (with_running true s)).
Proof.
  unfold start_monitoring.
  destruct (andThen_state_returns (start_monitoring_entry s)
              (loop_iterations envs) eq_refl) as [-> ->].
  split; [apply loop_iterations_returns | reflexivity].
Qed.

Lemma appended_length {A : Type} (k : nat) (old new : list A) :
  appended k old new -> length new = (length old + k)%nat.
Proof.
  intros [added [-> Hk]]. rewrite length_app. lia.
Qed.

Lemma exec_rows (l : Label) (w w' : World) :
  exec l w = Some w' ->
  rows_appended (length (filter is_tick [l]))
                (home_system w) (home_system w').
Proof.
  unfold exec.
  destruct l, (main_pc w), (loop_pc w);
    intro H; inversion H; subst; cbn [filter is_tick length home_system];
    try (apply (rows_appended_series 0 (home_system w) (home_system w));
         [reflexivity | apply rows_appended_refl]);
    apply process_sensor_data_row.
Qed.

Lemma run_rows (tr : list Label) (w w' : World) :
  run tr w = Some w' ->
  rows_appended (length (filter is_tick tr))
                (home_system w) (home_system w').
Proof.
  revert w. induction tr as [|l tr IH]; intros w H; cbn [run] in H.
  - inversion H. subst. apply rows_appended_refl.
  - destruct (exec l w) as [w1|] eqn:E; [|discriminate].
    replace (length (filter is_tick (l :: tr)))
      with (length (filter is_tick [l]) + length (filter is_tick tr))%nat
      by (cbn; destruct (is_tick l); reflexivity).
    eapply rows_appended_trans; [apply (exec_rows l w w1 E) | apply IH, H].
Qed.

(** C7, as the code has it.  A run of the loop on a new system executes
    every tick (no tick raises) and leaves exactly one row per tick in each
    of the four lists; the rows present after the first ticks of the run are
    still there at its end, in place and unchanged, followed by one row for
    each later tick; the elapsed times are the rounded differences between
    the clock at each tick and [start_time], and they are non-decreasing
    provided the successive readings of [time.time()] are.  In the threaded
    program too, however the shutdown path interleaves with the loop, the
    series has one row per executed tick. *)
Theorem recorded_series_of_a_run (now1 now2 : Q) (envs : list TickEnv) :
  let s0 := HomeAutomationSystem_init now1 now2 in
  let final := state (start_monitoring envs s0) in
  completion (start_monitoring envs s0) = Returns
  /\ (length (timestamps final) = length envs
      /\ length (temp_data final) = length envs
      /\ length (light_data final) = length envs
      /\ length (motion_data final) = length envs)
  /\ timestamps final =
       map (fun e => round2 (clock_at_tick e - now2)) envs
  /\ (forall done rest,
         envs = done ++ rest ->
         rows_appended (length rest)
                       (state (start_monitoring done s0)) final)
  /\ (non_decreasing (map clock_at_tick envs) ->
      non_decreasing (timestamps final))
  /\ (forall tr wf,
         run tr (initial_world now1 now2) = Some wf ->
         length (timestamps (home_system wf)) = length (filter is_tick tr)).
Proof.
  intros s0 final.
  destruct (start_monitoring_state envs s0) as [Hc Hs].
  destruct (loop_iterations_rows envs (with_running true s0))
    as (Ht & (A1 & A2 & A3 & A4) & _).
  cbn zeta in Ht. rewrite <- Hs in Ht, A1, A2, A3, A4. fold final in Ht.
  split; [exact Hc|].
  split; [|split; [|split; [|split]]].
  - apply appended_length in A1, A2, A3, A4.
    repeat split; assumption.
  - exact Ht.
  - intros done rest ->.
    destruct (start_monitoring_state done s0) as [_ ->].
    subst final. rewrite Hs, loop_iterations_app.
    apply loop_iterations_rows.
  - intro Hclock. rewrite Ht.
    rewrite <- (map_map clock_at_tick (fun c => round2 (c - now2))).
    apply non_decreasing_map; [|exact Hclock].
    intros x y Hxy. apply round2_mono. lra.
  - intros tr wf Hrun.
    destruct (run_rows tr _ wf Hrun) as (R1 & _).
    apply appended_length in R1. exact R1.
Qed.

(** C7, as stated, fails: when [time.time()] steps back between two ticks
    (the system clock is set back from 1010 to 1005, the loop having started
    at 1000), the second elapsed time, 5, is below the first, 10. *)
Lemma elapsed_seconds_can_decrease :
  let tick c := mkTickEnv c (mkRandom 25 300 false) c in
  let final :=
    state (start_monitoring [tick 1010%Q; tick 1005%Q]
                            (HomeAutomationSystem_init 1000 1000)) in
  length (timestamps final) = 2%nat
  /\ ~ non_decreasing (timestamps final).
Proof.
  split; [reflexivity|].
  intro H. vm_compute in H.
  apply StronglySorted_inv in H. destruct H as [_ H].
  apply Forall_inv in H. vm_compute in H. apply H. reflexivity.
Qed.

(** ** Stopping *)

(** C5, as the code has it.  [stop_monitoring] returns, sets [running] to
    false and changes no other field of the system; it also prints its
    notice and calls [plot_data], which hands the recorded series to the
    chart.  A second call leaves the system as the first left it and does
    the same prints and the same chart again. *)
Theorem stop_monitoring_effect (s : HomeAutomationSystem) :
  stop_monitoring s =
    ret (with_running false s)
        [StoppingSystem; GeneratingVisualization;
         Plot (timestamps s) (temp_data s) (light_data s) (motion_data s)]
  /\ running (state (stop_monitoring s)) = false
  /\ state (stop_monitoring (state (stop_monitoring s))) =
     state (stop_monitoring s)
  /\ printed (stop_monitoring (state (stop_monitoring s))) =
     printed (stop_monitoring s).
Proof.
  split; [|split; [|split]]; reflexivity.
Qed.

(** C5, as stated, fails: on a new system [stop_monitoring] draws the chart
    (of the empty series), and a second call draws it a second time. *)
Lemma stop_monitoring_renders :
  let s := HomeAutomationSystem_init 1000 1000 in
  In (Plot [] [] [] []) (printed (stop_monitoring s))
  /\ running (state (stop_monitoring s)) = false
  /\ printed (stop_monitoring (state (stop_monitoring s))) <> []
  /\ In (Plot [] [] [] [])
        (printed (stop_monitoring (state (stop_monitoring s)))).
Proof.
  cbn. split; [|split; [|split]].
  - right. right. left. reflexivity.
  - reflexivity.
  - discriminate.
  - right. right. left. reflexivity.
Qed.

(** ** The two threads *)

Lemma run_app (a b : list Label) (w : World) :
  run (a ++ b) w =
  match run a w with
  | Some w' => run b w'
  | None => None
  end.
Proof.
  revert w. induction a as [|l a IH]; intro w; cbn.
  - reflexivity.
  - destruct (exec l w) as [w'|]; [apply IH | reflexivity].
Qed.

Lemma exec_shutdown_done (l : Label) (w w' : World) :
  exec l w = Some w' ->
  shutdown_done (main_pc w') =
  shutdown_done (main_pc w) ++ filter is_shutdown [l].
Proof.
  unfold exec.
  destruct l, (main_pc w) eqn:Em, (loop_pc w) eqn:El;
    intro H; inversion H; subst; cbn; reflexivity.
Qed.

Lemma run_shutdown_done (tr : list Label) (w w' : World) :
  run tr w = Some w' ->
  shutdown_done (main_pc w') =
  shutdown_done (main_pc w) ++ filter is_shutdown tr.
Proof.
  revert w. induction tr as [|l tr IH]; intros w H; cbn in H.
  - inversion H. cbn. now rewrite app_nil_r.
  - destruct (exec l w) as [w1|] eqn:E; [|discriminate].
    rewrite (IH w1 H), (exec_shutdown_done l w w1 E).
    rewrite <- app_assoc. f_equal.
    cbn. destruct (is_shutdown l); reflexivity.
Qed.

Lemma filter_plot_shutdown (tr : list Label) :
  filter is_plot (filter is_shutdown tr) = filter is_plot tr.
Proof.
  induction tr as [|l tr IH]; cbn; [reflexivity|].
  destruct l; cbn; rewrite IH; reflexivity.
Qed.

(** Once the loop thread has exited it takes no further step. *)
Lemma exec_after_exit (l : Label) (w w' : World) :
  loop_pc w = LoopExited ->
  exec l w = Some w' ->
  loop_pc w' = LoopExited /\ is_tick l = false.
Proof.
  intro Hx. unfold exec. rewrite Hx.
  destruct l, (main_pc w); intro H; inversion H; subst; cbn;
    split; (reflexivity || assumption).
Qed.

Lemma run_after_exit (tr : list Label) (w w' : World) :
  loop_pc w = LoopExited ->
  run tr w = Some w' ->
  loop_pc w' = LoopExited /\ filter is_tick tr = [].
Proof.
  revert w. induction tr as [|l tr IH]; intros w Hx H; cbn in H.
  - inversion H. subst. split; [assumption | reflexivity].
  - destruct (exec l w) as [w1|] eqn:E; [|discriminate].
    destruct (exec_after_exit l w w1 Hx E) as [Hx1 Ht].
    destruct (IH w1 Hx1 H) as [Hx' Hf].
    split; [exact Hx'|]. cbn. now rewrite Ht.
Qed.

Lemma exec_Join (w w' : World) :
  exec Join w = Some w' -> loop_pc w = LoopExited /\ loop_pc w' = LoopExited.
Proof.
  unfold exec.
  destruct (main_pc w), (loop_pc w) eqn:El; intro H; inversion H; subst.
  split; [reflexivity | exact El].
Qed.

(** The three statements of the handler's call are [stop_monitoring]. *)
Lemma main_stop_monitoring (w : World) :
  main_pc w = MainStopCalled ->
  run [ClearFlag; PrintStopping; PlotData] w =
  Some (mkWorld (state (stop_monitoring (home_system w))) MainBeforeJoin
                (loop_pc w)
                (stdout w ++ printed (stop_monitoring (home_system w)))).
Proof.
  intro Hpc. cbn [run]. unfold exec at 1. rewrite Hpc.
  cbn. unfold main_step. cbn. rewrite <- app_assoc. reflexivity.
Qed.

(** C6, as the code has it.  In every run of the program that the main
    thread completes, the shutdown path is executed once and in program
    order: the flag is cleared, the notice printed, the chart drawn, the
    loop thread joined, the last line printed.  So the chart is drawn exactly
    once, after [running] is cleared and before the join; when the join
    returns the loop thread has exited, and no tick runs after it. *)
Theorem chart_drawn_once_before_join (now1 now2 : Q) (tr : list Label)
  (wf : World) :
  run tr (initial_world now1 now2) = Some wf ->
  main_pc wf = MainDone ->
  filter is_shutdown tr =
    [ClearFlag; PrintStopping; PlotData; Join; PrintStopped]
  /\ length (filter is_plot tr) = 1%nat
  /\ loop_pc wf = LoopExited
  /\ (forall pre post w,
         tr = pre ++ Join :: post ->
         run pre (initial_world now1 now2) = Some w ->
         loop_pc w = LoopExited /\ filter is_tick post = []).
Proof.
  intros Hrun Hdone.
  pose proof (run_shutdown_done tr _ wf Hrun) as Hsd.
  rewrite Hdone in Hsd. cbn in Hsd.
  assert (Hjoin : forall pre post w,
             tr = pre ++ Join :: post ->
             run pre (initial_world now1 now2) = Some w ->
             loop_pc w = LoopExited /\ filter is_tick post = []
             /\ loop_pc wf = LoopExited).
  { intros pre post w -> Hpre.
    rewrite run_app, Hpre in Hrun. cbn [run] in Hrun.
    destruct (exec Join w) as [w1|] eqn:E; [|discriminate].
    destruct (exec_Join w w1 E) as [Hw Hw1].
    destruct (run_after_exit post w1 wf Hw1 Hrun) as [Hwf Hticks].
    repeat split; assumption. }
  split; [now rewrite <- Hsd|].
  split; [rewrite <- filter_plot_shutdown, <- Hsd; reflexivity|].
  split.
  - assert (Hin : In Join tr).
    { assert (Hin' : In Join (filter is_shutdown tr)).
      { rewrite <- Hsd. cbn. tauto. }
      apply filter_In in Hin'. tauto. }
    apply in_split in Hin. destruct Hin as (pre & post & Htr).
    destruct (run pre (initial_world now1 now2)) as [w|] eqn:Hpre.
    + now destruct (Hjoin pre post w Htr Hpre) as (_ & _ & H).
    + rewrite Htr, run_app, Hpre in Hrun. discriminate.
  - intros pre post w Htr Hpre.
    destruct (Hjoin pre post w Htr Hpre) as (H1 & H2 & _).
    split; assumption.
Qed.

(** C6, as stated, fails.  In the runs [interrupted_in_sleep] and
    [interrupted_in_tick] the interrupt arrives once and the main thread
    completes.  In the first the chart is drawn while the loop thread is
    still in its sleep, not yet exited nor joined.  In the second the chart
    is drawn while the loop thread is in the body of its loop, and the tick
    runs after the chart has been drawn. *)
Lemma chart_drawn_while_loop_runs :
  let e := mkTickEnv 1005 (mkRandom 26 180 true) 1005 in
  let w0 := initial_world 1000 1000 in
  ((exists wf, run (interrupted_in_sleep e) w0 = Some wf
               /\ main_pc wf = MainDone /\ loop_pc wf = LoopExited)
   /\ ~ plots_after_loop_exit w0 (interrupted_in_sleep e))
  /\ ((exists wf, run (interrupted_in_tick e) w0 = Some wf
                  /\ main_pc wf = MainDone /\ loop_pc wf = LoopExited)
      /\ ~ plots_after_loop_exit w0 (interrupted_in_tick e)
      /\ ~ no_tick_after_plot (interrupted_in_tick e)).
Proof.
  intros e w0. split.
  - set (pre := [Enter; Test; Tick e; PrintRunning; Interrupt; ClearFlag;
                 PrintStopping]).
    set (post := [Wake; Test; Join; PrintStopped]).
    assert (Htr : interrupted_in_sleep e = pre ++ PlotData :: post)
      by reflexivity.
    split.
    + eexists. split; [vm_compute; reflexivity|]. split; reflexivity.
    + intro H.
      assert (E : exists w, run pre w0 = Some w /\ loop_pc w = LoopSleep).
      { eexists. split; [vm_compute; reflexivity | reflexivity]. }
      destruct E as (w & Hw & Hpc).
      specialize (H pre post w Htr Hw). congruence.
  - set (pre := [Enter; Test; PrintRunning; Interrupt; ClearFlag;
                 PrintStopping]).
    set (post := [Tick e; Wake; Test; Join; PrintStopped]).
    assert (Htr : interrupted_in_tick e = pre ++ PlotData :: post)
      by reflexivity.
    split; [|split].
    + eexists. split; [vm_compute; reflexivity|]. split; reflexivity.
    + intro H.
      assert (E : exists w, run pre w0 = Some w /\ loop_pc w = LoopBody).
      { eexists. split; [vm_compute; reflexivity | reflexivity]. }
      destruct E as (w & Hw & Hpc).
      specialize (H pre post w Htr Hw). congruence.
    + intro H. specialize (H pre post Htr). discriminate H.
Qed.

(** ** The scenarios of the specification *)

(** Reading 26 against target 24: cooling, the thermostat ends on. *)
Lemma thermostat_rule_branches_witness :
  let s := with_readings (VFloat 26) (VInt 180) (VBool true) new_system in
  as_number (value (temp_sensor_1 s)) = Some 26%Q
  /\ (target_temperature (thermostat_1 s) + 1 < 26)%Q
  /\ completion (rule_thermostat_control s) = Returns
  /\ status (thermostat_1 (state (rule_thermostat_control s))) = "on".
Proof.
  intro s.
  assert (Ht : as_number (value (temp_sensor_1 s)) = Some 26%Q)
    by reflexivity.
  assert (Hlt : (target_temperature (thermostat_1 s) + 1 < 26)%Q)
    by reflexivity.
  destruct (thermostat_rule_branches s 26 Ht) as (Hc & Hon & _).
  split; [exact Ht|]. split; [exact Hlt|].
  split; [exact Hc | exact (Hon Hlt)].
Defined.

(** Motion, 150 lux, light off: the light ends on at brightness 70. *)
Lemma lighting_rule_with_motion_witness :
  let s := with_readings (VFloat 26) (VInt 150) (VBool true) new_system in
  truthy (value (motion_sensor_1 s)) = true
  /\ last_motion_time (state (rule_lighting_control 1005 s)) = 1005%Q
  /\ status (light_1 (state (rule_lighting_control 1005 s))) = "on"
  /\ brightness (light_1 (state (rule_lighting_control 1005 s))) = 70%Q.
Proof.
  intro s.
  assert (Hm : truthy (value (motion_sensor_1 s)) = true) by reflexivity.
  assert (Hlux : as_number (value (light_sensor_1 s)) = Some (inject_Z 150))
    by reflexivity.
  assert (Hlt : (inject_Z 150 < 200)%Q) by reflexivity.
  assert (Hoff : status (light_1 s) = "off") by reflexivity.
  destruct (lighting_rule_with_motion 1005 s Hm) as (Htime & Hrest).
  destruct (Hrest (inject_Z 150) Hlux) as (_ & Hon & _).
  destruct (Hon Hlt Hoff) as (Hst & Hbr).
  split; [exact Hm|]. split; [exact Htime|].
  split; [exact Hst | exact Hbr].
Defined.

(** No motion, light on, 31 seconds since the last motion: the light ends
    off. *)
Lemma lighting_rule_without_motion_witness :
  let s := with_readings (VFloat 24.5) (VInt 300) (VBool false) lit_system in
  truthy (value (motion_sensor_1 s)) = false
  /\ status (light_1 s) = "on"
  /\ (30 < 1031 - last_motion_time s)%Q
  /\ status (light_1 (state (rule_lighting_control 1031 s))) = "off".
Proof.
  intro s.
  assert (Hm : truthy (value (motion_sensor_1 s)) = false) by reflexivity.
  assert (Hon : status (light_1 s) = "on") by reflexivity.
  assert (Hel : (30 < 1031 - last_motion_time s)%Q) by reflexivity.
  destruct (lighting_rule_without_motion 1031 s Hm) as (_ & _ & Hoff & _).
  destruct (Hoff Hon Hel) as (Hst & _).
  split; [exact Hm|]. split; [exact Hon|]. split; [exact Hel | exact Hst].
Defined.

(** The run interrupted during its first tick completes, and draws one
    chart. *)
Lemma chart_drawn_once_before_join_witness :
  let e := mkTickEnv 1005 (mkRandom 26 180 true) 1005 in
  (exists wf,
      run (interrupted_in_tick e) (initial_world 1000 1000) = Some wf
      /\ main_pc wf = MainDone)
  /\ filter is_shutdown (interrupted_in_tick e) =
       [ClearFlag; PrintStopping; PlotData; Join; PrintStopped]
  /\ length (filter is_plot (interrupted_in_tick e)) = 1%nat.
Proof.
  intro e.
  assert (R : exists wf,
             run (interrupted_in_tick e) (initial_world 1000 1000) = Some wf
             /\ main_pc wf = MainDone).
  { eexists. split; [vm_compute; reflexivity | reflexivity]. }
  destruct R as (wf & Hrun & Hdone).
  destruct (chart_drawn_once_before_join 1000 1000 (interrupted_in_tick e)
              wf Hrun Hdone) as (Hs & Hp & _).
  split; [exists wf; split; [exact Hrun | exact Hdone]|].
  split; [exact Hs | exact Hp].
Defined.

(** The end-to-end scenario: three ticks with readings (26, 180, motion),
    (24.5, 300, no motion) five seconds later, and (24.5, 300, no motion)
    31 seconds after the motion; target 24. *)
Example end_to_end_scenario :
  let e1 := mkTickEnv 1000 (mkRandom 26 180 true) 1000 in
  let e2 := mkTickEnv 1005 (mkRandom 24.5 300 false) 1005 in
  let e3 := mkTickEnv 1031 (mkRandom 24.5 300 false) 1031 in
  let s1 := state (start_monitoring [e1] new_system) in
  let s2 := state (start_monitoring [e1; e2] new_system) in
  let s3 := state (start_monitoring [e1; e2; e3] new_system) in
  (status (thermostat_1 s1) = "on"
   /\ status (light_1 s1) = "on" /\ brightness (light_1 s1) = 70%Q)
  /\ (status (thermostat_1 s2) = "off" /\ status (light_1 s2) = "on")
  /\ status (light_1 s3) = "off"
  /\ timestamps s3 = [0; 5; 31]%Q.
Proof.
  vm_compute. repeat split.
Qed.

(** * Further properties of the code *)

(** ** Sequences of calls on a device *)

Lemma light_op_brightness (op : LightOp) (l : SmartLight) :
  brightness_in_domain l -> brightness_in_domain (fst (light_op op l)).
Proof.
  unfold brightness_in_domain. intro Hl.
  destruct op as [s| | |level]; cbn [light_op].
  - unfold status_setter. destruct (in_on_off s); exact Hl.
  - exact Hl.
  - exact Hl.
  - unfold set_brightness.
    destruct (Qle_bool 0 level && Qle_bool level 100) eqn:E; [|exact Hl].
    cbn. now apply in_range_iff.
Qed.

Lemma thermostat_op_target (op : ThermostatOp) (t : SmartThermostat) :
  target_in_domain t -> target_in_domain (fst (thermostat_op op t)).
Proof.
  unfold target_in_domain. intro Ht.
  destruct op as [s| | |temp]; cbn [thermostat_op].
  - unfold status_setter. destruct (in_on_off s); exact Ht.
  - exact Ht.
  - exact Ht.
  - unfold set_target_temperature.
    destruct (Qle_bool 18 temp && Qle_bool temp 30) eqn:E; [|exact Ht].
    cbn. now apply in_range_iff.
Qed.

(** X1. Whatever sequence of methods is called on a light whose brightness
    is in [0, 100], its brightness is in [0, 100] afterwards; and whatever
    sequence is called on a thermostat whose target is in [18, 30], its
    target is in [18, 30] afterwards. *)
Theorem tunables_stay_in_domain (lops : list LightOp)
  (tops : list ThermostatOp) (l : SmartLight) (t : SmartThermostat) :
  brightness_in_domain l ->
  target_in_domain t ->
  brightness_in_domain (fst (calls light_op lops l))
  /\ target_in_domain (fst (calls thermostat_op tops t)).
Proof.
  intros Hl Ht. split.
  - apply (calls_invariant light_op brightness_in_domain);
      [apply light_op_brightness | exact Hl].
  - apply (calls_invariant thermostat_op target_in_domain);
      [apply thermostat_op_target | exact Ht].
Qed.

Lemma tunables_stay_in_domain_witness :
  let l := SmartLight_init "light_1" "Living Room Light" default_brightness in
  let t := SmartThermostat_init "thermostat_1" "Main Thermostat"
                                default_target_temperature in
  let lops := [LightSetBrightness 150; LightTurnOn; LightSetBrightness 70;
               LightSetBrightness (-1)] in
  let tops := [ThermostatSetTarget 31; ThermostatSetTarget 18;
               ThermostatAssignStatus "heat"] in
  brightness_in_domain l /\ target_in_domain t
  /\ brightness_in_domain (fst (calls light_op lops l))
  /\ target_in_domain (fst (calls thermostat_op tops t)).
Proof.
  intros l t lops tops.
  assert (Hl : brightness_in_domain l) by (split; discriminate).
  assert (Ht : target_in_domain t) by (split; discriminate).
  split; [exact Hl|]. split; [exact Ht|].
  exact (tunables_stay_in_domain lops tops l t Hl Ht).
Defined.

Lemma light_op_refused (op : LightOp) (l : SmartLight) :
  light_op_accepted op = false -> light_op op l = (l, []).
Proof.
  destruct op as [s| | |level]; cbn [light_op light_op_accepted]; intro H.
  - unfold status_setter. now rewrite H.
  - discriminate.
  - discriminate.
  - unfold set_brightness. now rewrite H.
Qed.

Lemma light_op_accepted_line (op : LightOp) (l : SmartLight) :
  light_op_accepted op = true -> length (snd (light_op op l)) = 1%nat.
Proof.
  destruct op as [s| | |level]; cbn [light_op light_op_accepted]; intro H.
  - unfold status_setter. now rewrite H.
  - reflexivity.
  - reflexivity.
  - unfold set_brightness. now rewrite H.
Qed.

Lemma thermostat_op_refused (op : ThermostatOp) (t : SmartThermostat) :
  thermostat_op_accepted op = false -> thermostat_op op t = (t, []).
Proof.
  destruct op as [s| | |temp];
    cbn [thermostat_op thermostat_op_accepted]; intro H.
  - unfold status_setter. now rewrite H.
  - discriminate.
  - discriminate.
  - unfold set_target_temperature. now rewrite H.
Qed.

Lemma thermostat_op_accepted_line (op : ThermostatOp) (t : SmartThermostat) :
  thermostat_op_accepted op = true ->
  length (snd (thermostat_op op t)) = 1%nat.
Proof.
  destruct op as [s| | |temp];
    cbn [thermostat_op thermostat_op_accepted]; intro H.
  - unfold status_setter. now rewrite H.
  - reflexivity.
  - reflexivity.
  - unfold set_target_temperature. now rewrite H.
Qed.

Lemma calls_filter {A Op : Type} (call : Op -> A -> A * list Line)
  (accepted : Op -> bool) :
  (forall op a, accepted op = false -> call op a = (a, [])) ->
  (forall op a, accepted op = true -> length (snd (call op a)) = 1%nat) ->
  forall ops a,
    calls call ops a = calls call (filter accepted ops) a
    /\ length (snd (calls call ops a)) = length (filter accepted ops).
Proof.
  intros Hno Hyes ops.
  induction ops as [|op ops IH]; intro a; cbn [calls filter].
  - split; reflexivity.
  - destruct (accepted op) eqn:E.
    + cbn [calls]. specialize (Hyes op a E).
      destruct (call op a) as [a' out]. cbn in Hyes.
      destruct (IH a') as [I1 I2]. rewrite <- I1.
      destruct (calls call ops a') as [a'' out']. cbn in I2. cbn.
      split; [reflexivity|]. rewrite length_app. cbn. lia.
    + rewrite (Hno op a E).
      destruct (IH a) as [I1 I2]. rewrite <- I1.
      destruct (calls call ops a) as [a'' out']. cbn in I2. cbn.
      split; [reflexivity | exact I2].
Qed.

(** X2. In a sequence of calls on a light or on a thermostat the refused
    requests (a status other than "on" and "off", a brightness outside
    [0, 100], a target outside [18, 30]) count for nothing: dropping them
    from the sequence gives the same final device and the same output.  The
    output has exactly one line for each accepted request, also when the
    request assigns the value the device already has. *)
Theorem refused_requests_are_invisible :
  (forall ops l,
      calls light_op ops l = calls light_op (filter light_op_accepted ops) l
      /\ length (snd (calls light_op ops l)) =
         length (filter light_op_accepted ops))
  /\ (forall ops t,
      calls thermostat_op ops t =
        calls thermostat_op (filter thermostat_op_accepted ops) t
      /\ length (snd (calls thermostat_op ops t)) =
         length (filter thermostat_op_accepted ops)).
Proof.
  split.
  - apply calls_filter;
      [apply light_op_refused | apply light_op_accepted_line].
  - apply calls_filter;
      [apply thermostat_op_refused | apply thermostat_op_accepted_line].
Qed.

(** ** Rounding and the temperature sensor *)

Lemma hundredths (k : Z) : (k # 100 == inject_Z k * (1 # 100))%Q.
Proof.
  unfold Qeq, Qmult, inject_Z. cbn. lia.
Qed.

Lemma hundredths_error (x : Q) :
  (x - (1 # 200) <= round_half_even (x * 100) # 100 <= x + (1 # 200))%Q.
Proof.
  rewrite hundredths.
  pose proof (round_half_even_error (x * 100)) as [Hlo Hhi].
  split; lra.
Qed.

(** [round(0.125, 2)] is the double nearest to 0.12, which is below 0.12 and
    so more than 0.005 away from 0.125; [round(20.0213, 2)] is the double
    nearest to 20.02; whole numbers of seconds are stored as they are. *)
Example round2_examples :
  round2 0.125 = (1080863910568919 # 9007199254740992)%Q
  /\ (round2 0.125 < 0.12)%Q
  /\ round2 20.0213 = (5635129033747333 # 281474976710656)%Q
  /\ round2 10 = 10%Q
  /\ round2 (-0.125) = (- (1080863910568919 # 9007199254740992))%Q
  /\ round2 0.004 = 0%Q.
Proof.
  vm_compute. repeat split.
Qed.

(** X3. A poll of the temperature sensor with a draw in [20, 30] stores the
    double nearest to a number of hundredths [k / 100], where [k] is between
    2000 and 3000 and [k / 100] is within 0.005 of the draw; the stored
    double is itself in [20, 30] and within [30 / 2 ^ 53] of [k / 100]; the
    sensor keeps its class, its id and its name. *)
Theorem temperature_reading_range (r : Random) (sensor : Sensor) :
  sensor_class sensor = TemperatureSensor ->
  (20 <= uniform_20_30 r <= 30)%Q ->
  exists k : Z,
    value (read_value r sensor) = VFloat (nearest_double (k # 100))
    /\ (2000 <= k <= 3000)%Z
    /\ (uniform_20_30 r - (1 # 200) <= k # 100
        <= uniform_20_30 r + (1 # 200))%Q
    /\ (20 <= nearest_double (k # 100) <= 30)%Q
    /\ (Qabs (nearest_double (k # 100) - (k # 100)) <= 30 # 2 ^ 53)%Q
    /\ sensor_class (read_value r sensor) = sensor_class sensor
    /\ sensor_id (read_value r sensor) = sensor_id sensor
    /\ sensor_name (read_value r sensor) = sensor_name sensor.
Proof.
  intros Hclass [Hlo Hhi].
  set (k := round_half_even (uniform_20_30 r * 100)).
  assert (Hk : (2000 <= k <= 3000)%Z).
  { split.
    - rewrite <- (round_half_even_Z 2000). apply round_half_even_mono.
      change (inject_Z 2000) with 2000%Q. lra.
    - rewrite <- (round_half_even_Z 3000). apply round_half_even_mono.
      change (inject_Z 3000) with 3000%Q. lra. }
  assert (Hq : (20 <= k # 100 <= 30)%Q).
  { unfold Qle. cbn. lia. }
  exists k.
  split; [unfold read_value; rewrite Hclass; reflexivity|].
  split; [exact Hk|].
  split; [apply hundredths_error|].
  split; [|split; [|repeat split]].
  - assert (E20 : nearest_double 20 == 20) by (vm_compute; reflexivity).
    assert (E30 : nearest_double 30 == 30) by (vm_compute; reflexivity).
    split.
    + apply (Qle_trans _ (nearest_double 20));
        [rewrite E20; apply Qle_refl | apply nearest_double_mono, Hq].
    + apply (Qle_trans _ (nearest_double 30));
        [apply nearest_double_mono, Hq | rewrite E30; apply Qle_refl].
  - apply (Qle_trans _ _ _ (nearest_double_error (k # 100))).
    rewrite Qabs_pos by lra.
    assert (E : (30 # 2 ^ 53) == 30 * (1 # 2 ^ 53)) by reflexivity.
    rewrite E. apply Qmult_le_compat_r; [apply Hq | discriminate].
Qed.

Lemma temperature_reading_range_witness :
  let r := mkRandom 20.0213 180 true in
  let sensor := Sensor_init TemperatureSensor "temp_sensor_1"
                            "Temperature Sensor" in
  (20 <= uniform_20_30 r <= 30)%Q
  /\ exists k : Z,
       value (read_value r sensor) = VFloat (nearest_double (k # 100))
       /\ (2000 <= k <= 3000)%Z
       /\ (20 <= nearest_double (k # 100) <= 30)%Q.
Proof.
  intros r sensor.
  assert (Hr : (20 <= uniform_20_30 r <= 30)%Q) by (split; discriminate).
  split; [exact Hr|].
  destruct (temperature_reading_range r sensor eq_refl Hr)
    as (k & Hv & Hk & _ & Hq & _).
  exists k. split; [exact Hv|]. split; [exact Hk | exact Hq].
Defined.

(** ** One tick, unfolded *)

Lemma rule_lighting_control_state (now : Q) (s : HomeAutomationSystem)
  (lux : Q) :
  as_number (value (light_sensor_1 s)) = Some lux ->
  state (rule_lighting_control now s) =
  lighting_result now lux (truthy (value (motion_sensor_1 s))) s.
Proof.
  intro Hlux. unfold rule_lighting_control, lighting_result. rewrite Hlux.
  destruct (truthy (value (motion_sensor_1 s))).
  - destruct (Qlt_bool lux 200 && (status (light_1 s) =? "off"));
      reflexivity.
  - destruct ((status (light_1 s) =? "on")
              && Qlt_bool 30 (now - last_motion_time s)); reflexivity.
Qed.

Lemma process_sensor_data_unfolded (e : TickEnv) (s : HomeAutomationSystem) :
  exists t lux,
    as_number (value (read_value (draws e) (temp_sensor_1 s))) = Some t
    /\ as_number (value (read_value (draws e) (light_sensor_1 s))) = Some lux
    /\ state (process_sensor_data e s) =
       lighting_result (clock_at_rule e) lux
         (truthy (value (read_value (draws e) (motion_sensor_1 s))))
         (with_thermostat_1
            (thermostat_with_status
               (thermostat_status_for t (target_temperature (thermostat_1 s)))
               (thermostat_1 s))
            (poll_and_record e s)).
Proof.
  destruct (as_number_read_value (draws e) (temp_sensor_1 s)) as [t Ht].
  destruct (as_number_read_value (draws e) (light_sensor_1 s)) as [lux Hlux].
  exists t, lux. split; [exact Ht|]. split; [exact Hlux|].
  destruct (process_sensor_data_rules e s) as (_ & _ & ->).
  destruct (rule_thermostat_control_eq (poll_and_record e s) t Ht)
    as [_ ->].
  rewrite (rule_lighting_control_state (clock_at_rule e) _ lux);
    [reflexivity | exact Hlux].
Qed.

Lemma lighting_result_frame (now lux : Q) (motion : bool)
  (s : HomeAutomationSystem) :
  let s' := lighting_result now lux motion s in
  thermostat_1 s' = thermostat_1 s
  /\ (temp_sensor_1 s', light_sensor_1 s', motion_sensor_1 s') =
     (temp_sensor_1 s, light_sensor_1 s, motion_sensor_1 s)
  /\ running s' = running s
  /\ start_time s' = start_time s
  /\ series s' = series s
  /\ device_id (light_device (light_1 s')) =
     device_id (light_device (light_1 s))
  /\ name (light_device (light_1 s')) = name (light_device (light_1 s)).
Proof.
  unfold lighting_result.
  destruct motion.
  - destruct (Qlt_bool lux 200 && (status (light_1 s) =? "off"));
      repeat split.
  - destruct ((status (light_1 s) =? "on")
              && Qlt_bool 30 (now - last_motion_time s)); repeat split.
Qed.

Lemma process_sensor_data_keeps (e : TickEnv) (s : HomeAutomationSystem) :
  let s' := state (process_sensor_data e s) in
  target_temperature (thermostat_1 s') = target_temperature (thermostat_1 s)
  /\ running s' = running s
  /\ start_time s' = start_time s
  /\ identities s' = identities s
  /\ (brightness (light_1 s') = brightness (light_1 s)
      \/ brightness (light_1 s') = 70%Q).
Proof.
  cbn zeta.
  destruct (process_sensor_data_unfolded e s) as (t & lux & _ & _ & ->).
  set (s3 := with_thermostat_1 _ _).
  set (m := truthy _).
  destruct (lighting_result_frame (clock_at_rule e) lux m s3)
    as (F1 & F2 & F3 & F4 & _ & F6 & F7).
  cbn zeta in *. inversion F2 as [[G1 G2 G3]].
  split; [now rewrite F1|]. split; [now rewrite F3|].
  split; [now rewrite F4|]. split.
  - unfold identities. rewrite F1, F6, F7, G1, G2, G3. reflexivity.
  - unfold lighting_result. destruct m.
    + destruct (Qlt_bool lux 200 && (status (light_1 s3) =? "off"));
        [right | left]; reflexivity.
    + destruct ((status (light_1 s3) =? "on")
                && Qlt_bool 30 (clock_at_rule e - last_motion_time s3));
        left; reflexivity.
Qed.

(** X4. A tick changes neither the target temperature, nor the [running]
    flag, nor [start_time], nor who the components are (ids and names of the
    two devices; classes, ids and names of the three sensors); and it leaves
    the brightness of the light as it was or sets it to 70. *)
Theorem tick_frame (e : TickEnv) (s : HomeAutomationSystem) :
  let s' := state (process_sensor_data e s) in
  target_temperature (thermostat_1 s') = target_temperature (thermostat_1 s)
  /\ running s' = running s
  /\ start_time s' = start_time s
  /\ identities s' = identities s
  /\ (brightness (light_1 s') = brightness (light_1 s)
      \/ brightness (light_1 s') = 70%Q).
Proof.
  exact (process_sensor_data_keeps e s).
Qed.

(** ** Missing readings *)

Lemma as_number_None (v : PyVal) : as_number v = None <-> v = VNone.
Proof.
  destruct v; cbn; split; intro H; try discriminate; reflexivity.
Qed.

(** X5. The thermostat rule raises [TypeError] exactly when the temperature
    sensor holds no reading ([None], as before the first poll); it then
    leaves the system untouched and prints nothing.  A tick polls the
    sensors first, and never raises, whatever the system it starts from. *)
Theorem thermostat_rule_raises_iff_no_reading :
  (forall s,
      completion (rule_thermostat_control s) = Raises TypeError <->
      value (temp_sensor_1 s) = VNone)
  /\ (forall s,
      value (temp_sensor_1 s) = VNone ->
      rule_thermostat_control s = raise TypeError s [])
  /\ (forall e s, completion (process_sensor_data e s) = Returns).
Proof.
  split; [|split].
  - intro s. rewrite <- as_number_None.
    destruct (as_number (value (temp_sensor_1 s))) as [t|] eqn:Ht.
    + destruct (rule_thermostat_control_eq s t Ht) as [-> _].
      split; discriminate.
    + unfold rule_thermostat_control. rewrite Ht. split; reflexivity.
  - intros s Hv. unfold rule_thermostat_control. rewrite Hv. reflexivity.
  - exact process_sensor_data_returns.
Qed.

(** X6. The lighting rule raises [TypeError] exactly when the motion reading
    is true and the light sensor holds no reading; by then it has already
    set [last_motion_time] to the current time, which is the only change it
    leaves, and it has printed nothing.  With no motion reading ([None]) the
    rule takes the branch without motion and cannot raise. *)
Theorem lighting_rule_raises_iff_motion_without_lux :
  (forall now s,
      completion (rule_lighting_control now s) = Raises TypeError <->
      truthy (value (motion_sensor_1 s)) = true
      /\ value (light_sensor_1 s) = VNone)
  /\ (forall now s,
      truthy (value (motion_sensor_1 s)) = true ->
      value (light_sensor_1 s) = VNone ->
      rule_lighting_control now s =
        raise TypeError (with_last_motion_time now s) [])
  /\ (forall now s,
      value (motion_sensor_1 s) = VNone ->
      completion (rule_lighting_control now s) = Returns
      /\ last_motion_time (state (rule_lighting_control now s)) =
         last_motion_time s).
Proof.
  split; [|split].
  - intros now s. rewrite <- as_number_None.
    unfold rule_lighting_control.
    destruct (truthy (value (motion_sensor_1 s))).
    + destruct (as_number (value (light_sensor_1 s))) as [lux|].
      * destruct (Qlt_bool lux 200 && (status (light_1 s) =? "off"));
          cbn; split; [discriminate | intros [_ H]; discriminate
                      | discriminate | intros [_ H]; discriminate].
      * cbn. split; [now split | reflexivity].
    + destruct ((status (light_1 s) =? "on")
                && Qlt_bool 30 (now - last_motion_time s));
        cbn; split; [discriminate | intros [H _]; discriminate
                    | discriminate | intros [H _]; discriminate].
  - intros now s Hm Hv. unfold rule_lighting_control.
    rewrite Hm, Hv. reflexivity.
  - intros now s Hv. unfold rule_lighting_control. rewrite Hv. cbn.
    destruct ((status (light_1 s) =? "on")
              && Qlt_bool 30 (now - last_motion_time s));
      split; reflexivity.
Qed.

(** ** Runs of the loop *)

Lemma loop_iterations_invariant (P : HomeAutomationSystem -> Prop) :
  (forall e s, P s -> P (state (process_sensor_data e s))) ->
  forall envs s, P s -> P (state (loop_iterations envs s)).
Proof.
  intros Hstep envs. induction envs as [|e envs IH]; intros s Hs.
  - exact Hs.
  - rewrite loop_iterations_cons. apply IH, Hstep, Hs.
Qed.

Lemma thermostat_status_for_on_or_off (t target : Q) :
  on_or_off (thermostat_status_for t target).
Proof.
  unfold thermostat_status_for, on_or_off.
  destruct (Qlt_bool (target + 1) t || Qlt_bool t (target - 1)); auto.
Qed.

Lemma process_sensor_data_devices (e : TickEnv) (s : HomeAutomationSystem) :
  devices_invariant s -> devices_invariant (state (process_sensor_data e s)).
Proof.
  intros (I1 & I2 & I3 & I4 & I5 & I6).
  destruct (process_sensor_data_keeps e s) as (K1 & K2 & _).
  cbn zeta in K1, K2.
  unfold devices_invariant. rewrite K1, K2.
  split; [exact I1|].
  destruct (process_sensor_data_unfolded e s) as (t & lux & _ & _ & ->).
  set (st := thermostat_status_for _ _).
  set (s3 := with_thermostat_1 _ _).
  assert (Hth : on_or_off st) by apply thermostat_status_for_on_or_off.
  clearbody st.
  assert (Hl : light_1 s3 = light_1 s) by reflexivity.
  assert (Ht3 : status (thermostat_1 s3) = st) by reflexivity.
  assert (Hkeep : forall s4,
             light_1 s4 = light_1 s -> thermostat_1 s4 = thermostat_1 s3 ->
             (brightness (light_1 s4) = default_brightness
              \/ brightness (light_1 s4) = 70%Q)
             /\ (status (light_1 s4) = "on" ->
                 brightness (light_1 s4) = 70%Q)
             /\ on_or_off (status (light_1 s4))
             /\ on_or_off (status (thermostat_1 s4))
             /\ running s = true).
  { intros s4 E4 T4. rewrite E4, T4, Ht3. repeat split; assumption. }
  clearbody s3.
  unfold lighting_result.
  destruct (truthy _).
  - destruct (Qlt_bool lux 200 && (status (light_1 s3) =? "off")).
    + cbn. rewrite Ht3.
      split; [right; reflexivity|]. split; [reflexivity|].
      split; [left; reflexivity|]. split; [exact Hth | exact I6].
    + apply Hkeep; [exact Hl | reflexivity].
  - destruct ((status (light_1 s3) =? "on")
              && Qlt_bool 30 (clock_at_rule e - last_motion_time s3)).
    + cbn. rewrite Ht3, Hl.
      split; [exact I2|]. split; [intro H; discriminate H|].
      split; [right; reflexivity|]. split; [exact Hth | exact I6].
    + apply Hkeep; [exact Hl | reflexivity].
Qed.

(** X7. All along a run of the loop on a new system: the target temperature
    is the default 24; the brightness of the light is the default 50 or 70,
    and it is 70 whenever the light is on; the status of the light and of
    the thermostat is "on" or "off"; [running] stays true (the loop never
    clears it itself); and the ids, names and sensor classes are those
    [initialize_components] gave. *)
Theorem run_keeps_devices_in_order (now1 now2 : Q) (envs : list TickEnv) :
  let s0 := HomeAutomationSystem_init now1 now2 in
  let final := state (start_monitoring envs s0) in
  devices_invariant final /\ identities final = identities s0.
Proof.
  intros s0 final. subst final.
  destruct (start_monitoring_state envs s0) as [_ ->].
  split.
  - apply loop_iterations_invariant; [apply process_sensor_data_devices|].
    unfold devices_invariant. cbn.
    repeat split; auto; try (right; reflexivity); try (left; reflexivity).
    intro H. discriminate H.
  - apply (loop_iterations_invariant
             (fun s => identities s = identities s0)); [|reflexivity].
    intros e s Hs.
    destruct (process_sensor_data_keeps e s) as (_ & _ & _ & -> & _).
    exact Hs.
Qed.

(** ** What a tick records *)

Lemma process_sensor_data_classed (e : TickEnv) (s : HomeAutomationSystem) :
  well_classed s ->
  state (process_sensor_data e s) =
  lighting_result (clock_at_rule e)
    (inject_Z (randint_100_600 (draws e)))
    (choice_True_False (draws e))
    (with_thermostat_1
       (thermostat_with_status
          (thermostat_status_for (round2 (uniform_20_30 (draws e)))
                                 (target_temperature (thermostat_1 s)))
          (thermostat_1 s))
       (poll_and_record e s)).
Proof.
  intros (Ct & Cl & Cm).
  destruct (process_sensor_data_unfolded e s) as (t & lux & Ht & Hlux & ->).
  unfold read_value in Ht, Hlux. rewrite Ct in Ht. rewrite Cl in Hlux.
  cbn in Ht, Hlux. inversion Ht. inversion Hlux. subst t lux.
  unfold read_value at 1. rewrite Cm. reflexivity.
Qed.

Lemma process_sensor_data_recorded (e : TickEnv) (s : HomeAutomationSystem) :
  well_classed s ->
  let s' := state (process_sensor_data e s) in
  well_classed s'
  /\ temp_data s' =
     temp_data s ++ [VFloat (round2 (uniform_20_30 (draws e)))]
  /\ light_data s' = light_data s ++ [VInt (randint_100_600 (draws e))]
  /\ motion_data s' =
     motion_data s ++ [if choice_True_False (draws e) then 1%Z else 0%Z]
  /\ (value (temp_sensor_1 s') = VFloat (round2 (uniform_20_30 (draws e)))
      /\ value (light_sensor_1 s') = VInt (randint_100_600 (draws e))
      /\ value (motion_sensor_1 s') = VBool (choice_True_False (draws e)))
  /\ last_motion_time s' =
     (if choice_True_False (draws e)
      then clock_at_rule e else last_motion_time s).
Proof.
  intros Hw. cbn zeta. rewrite (process_sensor_data_classed e s Hw).
  destruct Hw as (Ct & Cl & Cm).
  set (s3 := with_thermostat_1 _ _).
  destruct (lighting_result_frame (clock_at_rule e)
              (inject_Z (randint_100_600 (draws e)))
              (choice_True_False (draws e)) s3)
    as (_ & F2 & _ & _ & F5 & _).
  cbn zeta in F2, F5. inversion F2 as [[G1 G2 G3]].
  unfold series in F5. inversion F5 as [[E1 E2 E3 E4]].
  unfold well_classed. rewrite G1, G2, G3, E2, E3, E4.
  subst s3. cbn. unfold read_value. rewrite Ct, Cl, Cm. cbn.
  split; [repeat split|]. split; [reflexivity|]. split; [reflexivity|].
  split; [reflexivity|]. split; [repeat split|].
  unfold lighting_result.
  destruct (choice_True_False (draws e)).
  - match goal with |- context [if ?c then _ else _] => destruct c end;
      reflexivity.
  - match goal with |- context [if ?c then _ else _] => destruct c end;
      reflexivity.
Qed.

Lemma loop_iterations_recorded (envs : list TickEnv)
  (s : HomeAutomationSystem) :
  well_classed s ->
  let s' := state (loop_iterations envs s) in
  well_classed s'
  /\ temp_data s' =
     temp_data s
     ++ map (fun e => VFloat (round2 (uniform_20_30 (draws e)))) envs
  /\ light_data s' =
     light_data s ++ map (fun e => VInt (randint_100_600 (draws e))) envs
  /\ motion_data s' =
     motion_data s
     ++ map (fun e => if choice_True_False (draws e) then 1%Z else 0%Z) envs
  /\ last_motion_time s' = last_motion envs (last_motion_time s).
Proof.
  revert s. induction envs as [|e envs IH]; intros s Hw.
  - cbn. rewrite !app_nil_r. repeat split; apply Hw.
  - cbn zeta. rewrite loop_iterations_cons.
    destruct (process_sensor_data_recorded e s Hw)
      as (W & T & L & M & _ & LM).
    destruct (IH _ W) as (W' & T' & L' & M' & LM').
    cbn zeta in *.
    rewrite T', L', M', LM', T, L, M, LM. cbn [map].
    rewrite <- !app_assoc. cbn [app].
    split; [exact W'|]. repeat split.
Qed.

(** X8. After a run of the loop on a new system the three data lists hold
    exactly what the sensors read, tick by tick and in tick order: the
    rounded temperature draws as floats, the light draws as ints, and 1 or 0
    for a true or false motion draw; the sensors themselves hold the
    readings of the last tick. *)
Theorem recorded_rows_are_the_readings (now1 now2 : Q)
  (envs : list TickEnv) :
  let final :=
    state (start_monitoring envs (HomeAutomationSystem_init now1 now2)) in
  temp_data final =
    map (fun e => VFloat (round2 (uniform_20_30 (draws e)))) envs
  /\ light_data final =
     map (fun e => VInt (randint_100_600 (draws e))) envs
  /\ motion_data final =
     map (fun e => if choice_True_False (draws e) then 1%Z else 0%Z) envs
  /\ (forall done e,
         envs = done ++ [e] ->
         value (temp_sensor_1 final) =
           VFloat (round2 (uniform_20_30 (draws e)))
         /\ value (light_sensor_1 final) = VInt (randint_100_600 (draws e))
         /\ value (motion_sensor_1 final) =
            VBool (choice_True_False (draws e))).
Proof.
  intro final. subst final.
  set (s0 := HomeAutomationSystem_init now1 now2).
  destruct (start_monitoring_state envs s0) as [_ ->].
  assert (Hw : well_classed (with_running true s0)) by (repeat split).
  destruct (loop_iterations_recorded envs _ Hw) as (_ & T & L & M & _).
  cbn zeta in T, L, M.
  split; [exact T|]. split; [exact L|]. split; [exact M|].
  intros done e ->.
  rewrite loop_iterations_app, loop_iterations_cons. cbn [loop_iterations].
  destruct (loop_iterations_recorded done _ Hw) as (W & _).
  destruct (process_sensor_data_recorded e _ W) as (_ & _ & _ & _ & V & _).
  exact V.
Qed.

(** X9. After a run of the loop on a new system [last_motion_time] is the
    clock reading taken by the lighting rule in the last tick whose motion
    draw was true, and the clock reading of the constructor if no tick had
    motion. *)
Theorem last_motion_time_of_a_run (now1 now2 : Q) (envs : list TickEnv) :
  last_motion_time
    (state (start_monitoring envs (HomeAutomationSystem_init now1 now2))) =
  last_motion envs now1.
Proof.
  set (s0 := HomeAutomationSystem_init now1 now2).
  destruct (start_monitoring_state envs s0) as [_ ->].
  assert (Hw : well_classed (with_running true s0)) by (repeat split).
  destruct (loop_iterations_recorded envs _ Hw) as (_ & _ & _ & _ & LM).
  exact LM.
Qed.

(** X10. In the series of a run on a new system, the elapsed time recorded
    by a tick is the double nearest to a number of hundredths of a second
    [k / 100], where [k / 100] is within 0.005 of the difference between the
    clock at that tick and [start_time], and the double is within
    [|k / 100| / 2 ^ 53] of [k / 100]. *)
Theorem elapsed_seconds_accuracy (now1 now2 : Q) (envs : list TickEnv)
  (i : nat) (e : TickEnv) :
  nth_error envs i = Some e ->
  let final :=
    state (start_monitoring envs (HomeAutomationSystem_init now1 now2)) in
  exists k : Z,
    nth_error (timestamps final) i = Some (nearest_double (k # 100))
    /\ (clock_at_tick e - now2 - (1 # 200) <= k # 100
        <= clock_at_tick e - now2 + (1 # 200))%Q
    /\ (Qabs (nearest_double (k # 100) - (k # 100))
        <= Qabs (k # 100) * (1 # 2 ^ 53))%Q.
Proof.
  intros Hi final. subst final.
  set (s0 := HomeAutomationSystem_init now1 now2).
  destruct (start_monitoring_state envs s0) as [_ ->].
  destruct (loop_iterations_rows envs (with_running true s0)) as (Ht & _).
  cbn zeta in Ht. rewrite Ht. cbn [timestamps with_running s0 app
                                   HomeAutomationSystem_init start_time].
  exists (round_half_even ((clock_at_tick e - now2) * 100)).
  split; [|split].
  - apply (map_nth_error (fun e => round2 (clock_at_tick e - now2)) i envs Hi).
  - apply (hundredths_error (clock_at_tick e - now2)).
  - apply nearest_double_error.
Qed.

Lemma elapsed_seconds_accuracy_witness :
  let e1 := mkTickEnv 1000.004 (mkRandom 26 180 true) 1000.01 in
  let e2 := mkTickEnv 1000.125 (mkRandom 24.5 300 false) 1000.13 in
  nth_error [e1; e2] 1 = Some e2
  /\ exists k : Z,
       nth_error
         (timestamps
            (state (start_monitoring [e1; e2]
                      (HomeAutomationSystem_init 1000 1000)))) 1
       = Some (nearest_double (k # 100))
       /\ (clock_at_tick e2 - 1000 - (1 # 200) <= k # 100
           <= clock_at_tick e2 - 1000 + (1 # 200))%Q.
Proof.
  intros e1 e2.
  assert (H : nth_error [e1; e2] 1 = Some e2) by reflexivity.
  split; [exact H|].
  destruct (elapsed_seconds_accuracy 1000 1000 [e1; e2] 1 e2 H)
    as (k & Hn & Hk & _).
  exists k. split; [exact Hn | exact Hk].
Defined.

(** ** The devices after a tick *)

Lemma thermostat_status_for_on (t target : Q) :
  thermostat_status_for t target = "on" <->
  (target + 1 < t)%Q \/ (t < target - 1)%Q.
Proof.
  unfold thermostat_status_for.
  destruct (Qlt_bool (target + 1) t) eqn:E1; cbn.
  - apply Qlt_bool_iff in E1. split; [now left | reflexivity].
  - destruct (Qlt_bool t (target - 1)) eqn:E2.
    + apply Qlt_bool_iff in E2. split; [now right | reflexivity].
    + apply Qlt_bool_false_iff in E1. apply Qlt_bool_false_iff in E2.
      split; [discriminate|].
      intros [H | H]; exfalso; [apply (Qlt_not_le _ _ H E1)
                               | apply (Qlt_not_le _ _ H E2)].
Qed.

Lemma thermostat_status_for_off (t target : Q) :
  thermostat_status_for t target = "off" <->
  (target - 1 <= t <= target + 1)%Q.
Proof.
  unfold thermostat_status_for.
  destruct (Qlt_bool (target + 1) t) eqn:E1; cbn.
  - apply Qlt_bool_iff in E1. split; [discriminate|].
    intros [_ H]. exfalso. apply (Qlt_not_le _ _ E1 H).
  - destruct (Qlt_bool t (target - 1)) eqn:E2.
    + apply Qlt_bool_iff in E2. split; [discriminate|].
      intros [H _]. exfalso. apply (Qlt_not_le _ _ E2 H).
    + apply Qlt_bool_false_iff in E1. apply Qlt_bool_false_iff in E2.
      split; [now split | reflexivity].
Qed.

(** X11. After a tick the status of the thermostat is decided by the
    temperature just read (the double that [round] returns for the draw)
    and the target alone, whatever the status was before: it is "on" exactly when the
    reading is more than one degree above or below the target, and "off"
    exactly when it is within one degree, bounds included. *)
Theorem thermostat_after_tick (e : TickEnv) (s : HomeAutomationSystem) :
  sensor_class (temp_sensor_1 s) = TemperatureSensor ->
  let t := round2 (uniform_20_30 (draws e)) in
  let target := target_temperature (thermostat_1 s) in
  let s' := state (process_sensor_data e s) in
  (status (thermostat_1 s') = "on" <->
   (target + 1 < t)%Q \/ (t < target - 1)%Q)
  /\ (status (thermostat_1 s') = "off" <-> (target - 1 <= t <= target + 1)%Q).
Proof.
  intros Ct t target s'. subst s'.
  destruct (process_sensor_data_unfolded e s) as (t' & lux & Ht & _ & ->).
  unfold read_value in Ht. rewrite Ct in Ht. cbn in Ht. inversion Ht.
  subst t'. fold t. fold target.
  set (s3 := with_thermostat_1 _ _).
  destruct (lighting_result_frame (clock_at_rule e) lux
              (truthy (value (read_value (draws e) (motion_sensor_1 s)))) s3)
    as (F1 & _).
  cbn zeta in F1. rewrite F1.
  change (status (thermostat_1 s3)) with (thermostat_status_for t target).
  split; [apply thermostat_status_for_on | apply thermostat_status_for_off].
Qed.

Lemma thermostat_after_tick_witness :
  let e := mkTickEnv 1005 (mkRandom 22.994 300 false) 1005 in
  sensor_class (temp_sensor_1 new_system) = TemperatureSensor
  /\ (round2 (uniform_20_30 (draws e))
      < target_temperature (thermostat_1 new_system) - 1)%Q
  /\ status (thermostat_1 (state (process_sensor_data e new_system))) = "on".
Proof.
  intro e.
  assert (Hc : sensor_class (temp_sensor_1 new_system) = TemperatureSensor)
    by reflexivity.
  assert (Hlt : (round2 (uniform_20_30 (draws e))
                 < target_temperature (thermostat_1 new_system) - 1)%Q)
    by (vm_compute; reflexivity).
  split; [exact Hc|]. split; [exact Hlt|].
  destruct (thermostat_after_tick e new_system Hc) as [Hon _].
  apply Hon. right. exact Hlt.
Defined.

(** At the edge of the band the double matters: with the target set to the
    double nearest to 19.02 and a draw of 20.0213, the reading stored is the
    double nearest to 20.02, which is exactly the target plus one and below
    20.02: the thermostat ends off. *)
Example thermostat_at_the_edge_of_the_band :
  let target := nearest_double 19.02 in
  let s :=
    with_thermostat_1
      (fst (set_target_temperature target (thermostat_1 new_system)))
      new_system in
  let e := mkTickEnv 1005 (mkRandom (nearest_double 20.0213) 300 false) 1005 in
  let s' := state (process_sensor_data e s) in
  target_temperature (thermostat_1 s) = target
  /\ value (temp_sensor_1 s') = VFloat (round2 (nearest_double 20.0213))
  /\ (round2 (nearest_double 20.0213) == target + 1)%Q
  /\ (round2 (nearest_double 20.0213) < 20.02)%Q
  /\ status (thermostat_1 s') = "off".
Proof.
  vm_compute. repeat split.
Qed.

Lemma lux_below_200 (lux : Z) :
  Qlt_bool (inject_Z lux) 200 = true <-> (lux < 200)%Z.
Proof.
  rewrite Qlt_bool_iff. unfold Qlt, inject_Z. cbn. lia.
Qed.

(** X12. What a tick does to the light, in terms of what it reads.  The
    light goes from not on to on only in a tick that reads motion and less
    than 200 lux, and then its brightness is 70.  The light goes from on to
    not on only in a tick that reads no motion, more than 30 seconds after
    [last_motion_time], and then it is off.  A tick that reads motion leaves
    a light that is on as it is, and a tick that reads no motion within 30
    seconds of [last_motion_time] leaves the light as it is. *)
Theorem light_after_tick (e : TickEnv) (s : HomeAutomationSystem) :
  well_classed s ->
  let motion := choice_True_False (draws e) in
  let lux := randint_100_600 (draws e) in
  let elapsed := (clock_at_rule e - last_motion_time s)%Q in
  let s' := state (process_sensor_data e s) in
  (status (light_1 s) <> "on" -> status (light_1 s') = "on" ->
   motion = true /\ (lux < 200)%Z /\ brightness (light_1 s') = 70%Q)
  /\ (status (light_1 s) = "on" -> status (light_1 s') <> "on" ->
      motion = false /\ (30 < elapsed)%Q /\ status (light_1 s') = "off")
  /\ (motion = true -> status (light_1 s) = "on" -> light_1 s' = light_1 s)
  /\ (motion = false -> (elapsed <= 30)%Q -> light_1 s' = light_1 s).
Proof.
  intros Hw motion lux elapsed s'. subst s'.
  rewrite (process_sensor_data_classed e s Hw).
  fold motion. fold lux.
  set (s3 := with_thermostat_1 _ _).
  assert (Hl : light_1 s3 = light_1 s) by reflexivity.
  assert (Hlm : last_motion_time s3 = last_motion_time s) by reflexivity.
  clearbody s3. unfold lighting_result. rewrite Hl, Hlm. fold elapsed.
  destruct motion.
  - destruct (Qlt_bool (inject_Z lux) 200) eqn:Elux;
      destruct (status (light_1 s) =? "off") eqn:Eoff; cbn; rewrite ?Hl.
    + apply lux_below_200 in Elux. apply String.eqb_eq in Eoff.
      split; [intros _ _; repeat split; exact Elux|].
      split; [intros Hon; rewrite Hon in Eoff; discriminate|].
      split; [intros _ Hon; rewrite Hon in Eoff; discriminate|].
      intro H; discriminate H.
    + split; [intros H1 H2; contradiction|].
      split; [intros H1 H2; contradiction|].
      split; [reflexivity | intro H; discriminate H].
    + split; [intros H1 H2; contradiction|].
      split; [intros H1 H2; contradiction|].
      split; [reflexivity | intro H; discriminate H].
    + split; [intros H1 H2; contradiction|].
      split; [intros H1 H2; contradiction|].
      split; [reflexivity | intro H; discriminate H].
  - destruct (status (light_1 s) =? "on") eqn:Eon;
      destruct (Qlt_bool 30 elapsed) eqn:Eel; cbn; rewrite ?Hl.
    + apply Qlt_bool_iff in Eel.
      split; [intros _ H; discriminate H|].
      split; [intros _ _; repeat split; exact Eel|].
      split; [intro H; discriminate H|].
      intros _ Hle. exfalso. apply (Qlt_not_le _ _ Eel Hle).
    + split; [intros H1 H2; contradiction|].
      split; [intros H1 H2; contradiction|].
      split; [intro H; discriminate H | reflexivity].
    + split; [intros H1 H2; contradiction|].
      split; [intros H1 H2; contradiction|].
      split; [intro H; discriminate H | reflexivity].
    + split; [intros H1 H2; contradiction|].
      split; [intros H1 H2; contradiction|].
      split; [intro H; discriminate H | reflexivity].
Qed.

Lemma light_after_tick_witness :
  let e := mkTickEnv 1031 (mkRandom 24.5 300 false) 1031 in
  well_classed lit_system
  /\ status (light_1 lit_system) = "on"
  /\ status (light_1 (state (process_sensor_data e lit_system))) <> "on"
  /\ (30 < clock_at_rule e - last_motion_time lit_system)%Q
  /\ status (light_1 (state (process_sensor_data e lit_system))) = "off".
Proof.
  intro e.
  assert (Hw : well_classed lit_system) by (repeat split).
  assert (Hon : status (light_1 lit_system) = "on") by reflexivity.
  assert (Hoff : status (light_1 (state (process_sensor_data e lit_system)))
                 <> "on") by (vm_compute; discriminate).
  destruct (light_after_tick e lit_system Hw) as (_ & H2 & _).
  destruct (H2 Hon Hoff) as (_ & Hel & Hst).
  split; [exact Hw|]. split; [exact Hon|]. split; [exact Hoff|].
  split; [exact Hel | exact Hst].
Defined.

(** ** The loop thread and the stop flag *)

Lemma exec_Tick (e : TickEnv) (w w' : World) :
  exec (Tick e) w = Some w' ->
  loop_pc w = LoopBody
  /\ w' = mkWorld (state (process_sensor_data e (home_system w)))
                  (main_pc w) LoopSleep
                  (stdout w ++ printed (process_sensor_data e (home_system w))).
Proof.
  unfold exec. rewrite (process_sensor_data_returns e (home_system w)).
  destruct (main_pc w), (loop_pc w); intro H; inversion H;
    split; reflexivity.
Qed.

Lemma exec_Tick_running (e : TickEnv) (w w' : World) :
  exec (Tick e) w = Some w' ->
  loop_pc w = LoopBody /\ loop_pc w' = LoopSleep
  /\ main_pc w' = main_pc w
  /\ running (home_system w') = running (home_system w).
Proof.
  intro H. destruct (exec_Tick e w w' H) as [Hpc ->]. cbn.
  destruct (process_sensor_data_keeps e (home_system w)) as (_ & K & _).
  repeat split; assumption.
Qed.

(** The steps other than a tick, one by one. *)
Ltac exec_cases l w H :=
  unfold exec in H;
  destruct l; try discriminate;
  destruct (main_pc w) eqn:?Em; destruct (loop_pc w) eqn:?El;
  inversion H; subst; clear H; cbn in *.

Lemma exec_loop_invariant (l : Label) (w w' : World) :
  exec l w = Some w' -> loop_invariant w -> loop_invariant w'.
Proof.
  intros H [I1 I2]. unfold loop_invariant, flag_cleared in *.
  destruct (is_tick l) eqn:Etick.
  - destruct l; try discriminate.
    destruct (exec_Tick_running e w w' H) as (Hb & Hs & Hm & Hr).
    rewrite Hs, Hm, Hr. split; [discriminate|].
    intros _ Hf. apply I2; [rewrite Hb; discriminate | exact Hf].
  - exec_cases l w H;
      try rewrite Em in *; try rewrite El in *; cbn in *;
      (split;
       [ try (intro; discriminate); try (intro; reflexivity); auto
       | intros Hne Hf; try (exfalso; apply Hne; reflexivity);
         try discriminate; try (cbn; tauto);
         try (apply I2; [discriminate | assumption]) ]).
    all: try (destruct (running (home_system w)); cbn in *;
              first [ discriminate | reflexivity
                    | apply I2; [discriminate | reflexivity] ]).
Qed.

Lemma run_invariant (P : World -> Prop) :
  (forall l w w', exec l w = Some w' -> P w -> P w') ->
  forall tr w w', run tr w = Some w' -> P w -> P w'.
Proof.
  intros Hstep tr. induction tr as [|l tr IH]; intros w w' H Hw; cbn in H.
  - inversion H. subst. exact Hw.
  - destruct (exec l w) as [w1|] eqn:E; [|discriminate].
    apply (IH w1 w' H). apply (Hstep l w w1 E Hw).
Qed.

(** X13. The loop thread never leaves its loop on its own: in every run of
    the program, if the thread running [start_monitoring] has exited, then
    the main thread has executed [self.running = False] (so an interrupt was
    received), and [running] is false. *)
Theorem loop_exits_only_when_stopped (now1 now2 : Q) (tr : list Label)
  (w : World) :
  run tr (initial_world now1 now2) = Some w ->
  loop_pc w = LoopExited ->
  In ClearFlag tr /\ In Interrupt tr /\ running (home_system w) = false.
Proof.
  intros Hrun Hx.
  assert (Hinv : loop_invariant w).
  { apply (run_invariant loop_invariant exec_loop_invariant tr _ w Hrun).
    split; [discriminate|]. intro H. exfalso. apply H. reflexivity. }
  destruct Hinv as [I1 I2].
  assert (Hf : flag_cleared w).
  { apply I2; [rewrite Hx; discriminate | exact (I1 Hx)]. }
  unfold flag_cleared in Hf.
  rewrite (run_shutdown_done tr _ w Hrun) in Hf. cbn [app] in Hf.
  apply filter_In in Hf. destruct Hf as [Hin _].
  split; [exact Hin|]. split; [|exact (I1 Hx)].
  clear - Hrun Hin.
  assert (G : forall tr w0 w,
             run tr w0 = Some w -> In ClearFlag tr ->
             main_pc w0 = MainStarted \/ main_pc w0 = MainWaiting ->
             In Interrupt tr).
  { clear. intro tr. induction tr as [|l tr IH]; intros w0 w H Hin Hpc.
    - destruct Hin.
    - cbn in H. destruct (exec l w0) as [w1|] eqn:E; [|discriminate].
      destruct Hin as [-> | Hin].
      + exfalso. unfold exec in E.
        destruct Hpc as [Hpc | Hpc]; rewrite Hpc in E; discriminate.
      + assert (Hl : l = Interrupt
                     \/ main_pc w1 = MainStarted \/ main_pc w1 = MainWaiting).
        { unfold exec in E.
          destruct l; try (left; reflexivity);
            destruct Hpc as [Hpc | Hpc]; rewrite Hpc in E;
            destruct (loop_pc w0); inversion E; subst; cbn; auto. }
        destruct Hl as [-> | Hpc1]; [left; reflexivity|].
        right. apply (IH w1 w H Hin Hpc1). }
  apply (G tr _ w Hrun Hin). left. reflexivity.
Qed.

Lemma loop_exits_only_when_stopped_witness :
  let e := mkTickEnv 1005 (mkRandom 26 180 true) 1005 in
  (exists w, run (interrupted_in_sleep e) (initial_world 1000 1000) = Some w
             /\ loop_pc w = LoopExited)
  /\ In ClearFlag (interrupted_in_sleep e).
Proof.
  intro e.
  assert (R : exists w,
             run (interrupted_in_sleep e) (initial_world 1000 1000) = Some w
             /\ loop_pc w = LoopExited).
  { eexists. split; [vm_compute; reflexivity | reflexivity]. }
  destruct R as (w & Hrun & Hx).
  destruct (loop_exits_only_when_stopped 1000 1000 (interrupted_in_sleep e)
              w Hrun Hx) as (Hin & _).
  split; [exists w; split; [exact Hrun | exact Hx] | exact Hin].
Defined.

Lemma exec_stop_lost (l : Label) (w w' : World) :
  exec l w = Some w' -> stop_lost w -> stop_lost w'.
Proof.
  intros H (F & J & D & L). unfold stop_lost, flag_cleared in *.
  destruct (is_tick l) eqn:Etick.
  - destruct l; try discriminate.
    destruct (exec_Tick_running e w w' H) as (Hb & Hs & Hm & Hr).
    rewrite Hs, Hm, Hr.
    split; [exact F|]. split; [exact J|]. split; [exact D|].
    right. destruct L as [L | [L _]]; [rewrite L in Hb; discriminate|].
    split; [exact L | discriminate].
  - exec_cases l w H;
      try rewrite Em in *; try rewrite El in *; cbn in *;
      try (exfalso; tauto);
      try (destruct L as [L | [L1 L2]];
           [try discriminate | try (exfalso; apply L2; reflexivity)]);
      try rewrite L1 in *; cbn;
      repeat split; try discriminate; try tauto;
      try (right; split; [reflexivity || assumption | discriminate]).
Qed.

(** X14. If the interrupt is handled before the loop thread has executed
    its first statement, the stop is lost: [start_monitoring] then sets
    [running] back to true, so in every continuation of the run the loop
    thread never exits, [running] is true whenever it is in its loop, and
    the main thread never gets past [automation_thread.join()]. *)
Theorem early_interrupt_is_lost (w : World) (post : list Label) (w' : World) :
  flag_cleared w ->
  main_pc w <> MainJoined -> main_pc w <> MainDone ->
  loop_pc w = LoopEntry ->
  run post w = Some w' ->
  loop_pc w' <> LoopExited
  /\ main_pc w' <> MainJoined /\ main_pc w' <> MainDone
  /\ (loop_pc w' <> LoopEntry -> running (home_system w') = true).
Proof.
  intros F J D L Hrun.
  assert (Hs : stop_lost w') .
  { apply (run_invariant stop_lost exec_stop_lost post w w' Hrun).
    repeat split; try assumption. left. exact L. }
  destruct Hs as (_ & J' & D' & L').
  split; [|split; [exact J' | split; [exact D'|]]].
  - destruct L' as [L' | [_ L']]; [rewrite L'; discriminate | exact L'].
  - intro Hne. destruct L' as [L' | [L' _]]; [contradiction | exact L'].
Qed.

Lemma early_interrupt_is_lost_witness :
  let e := mkTickEnv 1005 (mkRandom 26 180 true) 1005 in
  exists w w',
    run [Interrupt; ClearFlag] (initial_world 1000 1000) = Some w
    /\ run [Enter; Test; Tick e; PrintStopping; PlotData; Wake; Test] w
       = Some w'
    /\ flag_cleared w /\ loop_pc w = LoopEntry
    /\ loop_pc w' = LoopBody
    /\ running (home_system w') = true
    /\ main_pc w' <> MainDone.
Proof.
  intro e.
  assert (R : exists w w',
             run [Interrupt; ClearFlag] (initial_world 1000 1000) = Some w
             /\ run [Enter; Test; Tick e; PrintStopping; PlotData; Wake;
                     Test] w = Some w'
             /\ flag_cleared w
             /\ main_pc w <> MainJoined /\ main_pc w <> MainDone
             /\ loop_pc w = LoopEntry
             /\ loop_pc w' = LoopBody).
  { eexists. eexists. split; [vm_compute; reflexivity|].
    split; [vm_compute; reflexivity|].
    split; [left; reflexivity|]. split; [discriminate|].
    split; [discriminate|]. split; reflexivity. }
  destruct R as (w & w' & Hw & Hw' & F & J & D & L & B).
  destruct (early_interrupt_is_lost w _ w' F J D L Hw')
    as (_ & _ & D' & R).
  exists w, w'. split; [exact Hw|]. split; [exact Hw'|].
  split; [exact F|]. split; [exact L|]. split; [exact B|].
  split; [apply R; rewrite B; discriminate | exact D'].
Defined.

Lemma exec_stopping (l : Label) (w w' : World) :
  exec l w = Some w' -> stopping w ->
  stopping w'
  /\ (length (filter is_tick [l]) + ticks_left (loop_pc w')
      <= ticks_left (loop_pc w))%nat.
Proof.
  intros H [R L]. unfold stopping in *.
  destruct (is_tick l) eqn:Etick.
  - destruct l; try discriminate.
    destruct (exec_Tick_running e w w' H) as (Hb & Hs & Hm & Hr).
    rewrite Hs, Hr, Hb. cbn. split; [split; [exact R | discriminate] | lia].
  - exec_cases l w H;
      try rewrite El in *; cbn in *;
      try (exfalso; apply L; reflexivity);
      try rewrite R; cbn;
      (split; [split; [reflexivity || assumption | discriminate] | lia]).
Qed.

Lemma run_stopping (post : list Label) (w w' : World) :
  run post w = Some w' -> stopping w ->
  stopping w'
  /\ (length (filter is_tick post) + ticks_left (loop_pc w')
      <= ticks_left (loop_pc w))%nat.
Proof.
  revert w. induction post as [|l post IH]; intros w H Hs; cbn [run] in H.
  - inversion H. subst. split; [exact Hs | cbn; lia].
  - destruct (exec l w) as [w1|] eqn:E; [|discriminate].
    destruct (exec_stopping l w w1 E Hs) as [Hs1 Hn1].
    destruct (IH w1 H Hs1) as [Hs' Hn'].
    split; [exact Hs'|].
    replace (length (filter is_tick (l :: post)))
      with (length (filter is_tick [l]) + length (filter is_tick post))%nat
      by (cbn; destruct (is_tick l); reflexivity).
    lia.
Qed.

Lemma way_out_exits (e : TickEnv) (w : World) :
  stopping w ->
  exists w', run (way_out e (loop_pc w)) w = Some w'
             /\ loop_pc w' = LoopExited.
Proof.
  intros [R L].
  assert (Htest : forall v, running (home_system v) = false ->
                            loop_pc v = LoopTest ->
                            exists v', run [Test] v = Some v'
                                       /\ loop_pc v' = LoopExited).
  { intros v Rv Lv. cbn [run]. unfold exec. rewrite Lv, Rv.
    destruct (main_pc v); eexists; split; reflexivity. }
  assert (Hwake : forall v, running (home_system v) = false ->
                            loop_pc v = LoopSleep ->
                            exists v', run [Wake; Test] v = Some v'
                                       /\ loop_pc v' = LoopExited).
  { intros v Rv Lv.
    assert (E : exists v1, exec Wake v = Some v1
                           /\ running (home_system v1) = false
                           /\ loop_pc v1 = LoopTest).
    { unfold exec. rewrite Lv.
      destruct (main_pc v); eexists; (split; [reflexivity|]);
        split; (exact Rv || reflexivity). }
    destruct E as (v1 & E1 & R1 & L1).
    change [Wake; Test] with ([Wake] ++ [Test]). rewrite run_app.
    cbn [run]. rewrite E1. apply (Htest v1 R1 L1). }
  destruct (loop_pc w) eqn:El; cbn [way_out].
  - exfalso. apply L. reflexivity.
  - apply (Htest w R El).
  - destruct (exec (Tick e) w) as [w1|] eqn:E.
    + destruct (exec_Tick_running e w w1 E) as (_ & Hs & _ & Hr).
      change [Tick e; Wake; Test] with ([Tick e] ++ [Wake; Test]).
      rewrite run_app. cbn [run]. rewrite E.
      apply Hwake; [now rewrite Hr | exact Hs].
    + exfalso. unfold exec in E. rewrite El in E.
      destruct (main_pc w); discriminate.
  - apply (Hwake w R El).
  - exists w. split; [reflexivity | exact El].
Qed.

(** X15. Once the loop thread is in its loop and [running] is false (the
    main thread has cleared the flag), [running] stays false, and in every
    continuation of the run at most one more tick is executed: none unless
    the loop thread had already passed the test of its [while] when the flag
    was cleared.  And the loop thread can always get out: its next three
    statements at most take it to its exit. *)
Theorem at_most_one_tick_after_stop (e : TickEnv) (w : World)
  (post : list Label) (w' : World) :
  running (home_system w) = false ->
  loop_pc w <> LoopEntry ->
  run post w = Some w' ->
  running (home_system w') = false
  /\ (length (filter is_tick post) <= ticks_left (loop_pc w) <= 1)%nat
  /\ (length (way_out e (loop_pc w')) <= 3)%nat
  /\ exists w'', run (way_out e (loop_pc w')) w' = Some w''
                 /\ loop_pc w'' = LoopExited.
Proof.
  intros R L Hrun.
  destruct (run_stopping post w w' Hrun (conj R L)) as [Hs Hn].
  split; [apply Hs|]. split; [|split].
  - split; [lia|]. destruct (loop_pc w); cbn; lia.
  - destruct (loop_pc w'); cbn; lia.
  - apply (way_out_exits e w' Hs).
Qed.

Lemma at_most_one_tick_after_stop_witness :
  let e := mkTickEnv 1005 (mkRandom 26 180 true) 1005 in
  exists w w',
    run [Enter; Test; PrintRunning; Interrupt; ClearFlag]
        (initial_world 1000 1000) = Some w
    /\ run [PrintStopping; PlotData; Tick e] w = Some w'
    /\ running (home_system w) = false
    /\ loop_pc w <> LoopEntry
    /\ running (home_system w') = false
    /\ (length (filter is_tick [PrintStopping; PlotData; Tick e])
        <= ticks_left (loop_pc w))%nat.
Proof.
  intro e.
  assert (R0 : exists w w',
             run [Enter; Test; PrintRunning; Interrupt; ClearFlag]
                 (initial_world 1000 1000) = Some w
             /\ run [PrintStopping; PlotData; Tick e] w = Some w'
             /\ running (home_system w) = false
             /\ loop_pc w <> LoopEntry).
  { eexists. eexists. split; [vm_compute; reflexivity|].
    split; [vm_compute; reflexivity|].
    split; [reflexivity | discriminate]. }
  destruct R0 as (w & w' & Hw & Hw' & R & L).
  destruct (at_most_one_tick_after_stop e w _ w' R L Hw')
    as (R' & [Hn _] & _).
  exists w, w'. split; [exact Hw|]. split; [exact Hw'|].
  split; [exact R|]. split; [exact L|]. split; [exact R' | exact Hn].
Defined.

Lemma with_running_same (s : HomeAutomationSystem) :
  with_running (running s) s = s.
Proof. destruct s. reflexivity. Qed.

Lemma exec_exited_system (l : Label) (w w' : World) :
  loop_pc w = LoopExited ->
  exec l w = Some w' ->
  home_system w' = with_running (running (home_system w')) (home_system w).
Proof.
  intros Hx H. unfold exec in H. rewrite Hx in H.
  destruct l, (main_pc w); inversion H; subst; cbn;
    try (symmetry; apply with_running_same); reflexivity.
Qed.

Lemma run_exited_system (post : list Label) (w w' : World) :
  loop_pc w = LoopExited ->
  run post w = Some w' ->
  home_system w' = with_running (running (home_system w')) (home_system w).
Proof.
  revert w. induction post as [|l post IH]; intros w Hx H; cbn [run] in H.
  - inversion H. subst. symmetry. apply with_running_same.
  - destruct (exec l w) as [w1|] eqn:E; [|discriminate].
    destruct (exec_after_exit l w w1 Hx E) as [Hx1 _].
    rewrite (IH w1 Hx1 H).
    rewrite (exec_exited_system l w w1 Hx E). reflexivity.
Qed.

(** X16. Once the loop thread has exited, nothing of the system changes any
    more apart from the [running] flag: in every continuation of the run no
    tick is executed, the recorded series, the devices, the sensors and
    [last_motion_time] stay as they are, and the loop thread stays
    exited. *)
Theorem system_frozen_after_loop_exit (w : World) (post : list Label)
  (w' : World) :
  loop_pc w = LoopExited ->
  run post w = Some w' ->
  home_system w' = with_running (running (home_system w')) (home_system w)
  /\ series (home_system w') = series (home_system w)
  /\ filter is_tick post = []
  /\ loop_pc w' = LoopExited.
Proof.
  intros Hx Hrun.
  pose proof (run_exited_system post w w' Hx Hrun) as Hs.
  destruct (run_after_exit post w w' Hx Hrun) as [Hx' Ht].
  split; [exact Hs|]. split; [rewrite Hs; reflexivity|].
  split; [exact Ht | exact Hx'].
Qed.

Lemma system_frozen_after_loop_exit_witness :
  let e := mkTickEnv 1005 (mkRandom 26 180 true) 1005 in
  exists w w',
    run [Enter; Test; Tick e; PrintRunning; Interrupt; ClearFlag; Wake; Test]
        (initial_world 1000 1000) = Some w
    /\ run [PrintStopping; PlotData; Join; PrintStopped] w = Some w'
    /\ loop_pc w = LoopExited
    /\ series (home_system w') = series (home_system w)
    /\ length (timestamps (home_system w')) = 1%nat.
Proof.
  intro e.
  assert (R : exists w w',
             run [Enter; Test; Tick e; PrintRunning; Interrupt; ClearFlag;
                  Wake; Test] (initial_world 1000 1000) = Some w
             /\ run [PrintStopping; PlotData; Join; PrintStopped] w = Some w'
             /\ loop_pc w = LoopExited
             /\ length (timestamps (home_system w)) = 1%nat).
  { eexists. eexists. split; [vm_compute; reflexivity|].
    split; [vm_compute; reflexivity|]. split; reflexivity. }
  destruct R as (w & w' & Hw & Hw' & Hx & Hlen).
  destruct (system_frozen_after_loop_exit w _ w' Hx Hw') as (_ & Hs & _).
  exists w, w'. split; [exact Hw|]. split; [exact Hw'|].
  split; [exact Hx|]. split; [exact Hs|].
  unfold series in Hs. inversion Hs as [[E1 E2 E3 E4]].
  rewrite E1. exact Hlen.
Defined.

(** ** The chart *)

(** X17. Called after a run of the loop on a new system, [stop_monitoring]
    hands [plot_data] four lists of one and the same length, the number of
    ticks of the run (none for a run without ticks), the x axis being the
    rounded elapsed times; it clears [running] and leaves the series as it
    is, so that a second call draws the same chart. *)
Theorem chart_of_a_run (now1 now2 : Q) (envs : list TickEnv) :
  let final :=
    state (start_monitoring envs (HomeAutomationSystem_init now1 now2)) in
  exists ts temps lights motions,
    printed (stop_monitoring final) =
      [StoppingSystem; GeneratingVisualization; Plot ts temps lights motions]
    /\ ts = map (fun e => round2 (clock_at_tick e - now2)) envs
    /\ length ts = length envs
    /\ length temps = length envs
    /\ length lights = length envs
    /\ length motions = length envs
    /\ running (state (stop_monitoring final)) = false
    /\ printed (stop_monitoring (state (stop_monitoring final))) =
       printed (stop_monitoring final).
Proof.
  intro final.
  exists (timestamps final), (temp_data final), (light_data final),
    (motion_data final).
  split; [reflexivity|].
  subst final. set (s0 := HomeAutomationSystem_init now1 now2).
  destruct (start_monitoring_state envs s0) as [_ ->].
  destruct (loop_iterations_rows envs (with_running true s0))
    as (Ht & (A1 & A2 & A3 & A4) & _).
  cbn zeta in Ht.
  apply appended_length in A1, A2, A3, A4.
  split; [exact Ht|].
  split; [exact A1|]. split; [exact A2|]. split; [exact A3|].
  split; [exact A4|]. split; reflexivity.
Qed.
